(** * DevImageHost backend: account and token lifecycle

    A shallow embedding of the authentication core of the Express server
    (the two server files agree line for line on every route modelled here)
    and of [middleware/auth.js].

    - The [User] table is a list of rows in table order together with the
      [SERIAL] counter of its primary key.
    - A route handler is a computation over the table that either sends a
      response, throws (caught by the handler's own [try]/[catch] and turned
      into a 500) or goes on with a value.
    - What a request draws from outside the process (the clock, the random
      bytes, the salt bcrypt draws, the outcome of the mail relay) is an
      explicit [Env] argument of the handler.
    - The third-party packages are interfaces: [Bcrypt] for hashing,
      [Jws] for the signed compact serialisation used by jsonwebtoken.
    - A request field that a handler hands to a Prisma [where] without
      looking at it (the token of verify-email and of reset-password) is a
      [Js.Field]: absent, null, a string or another value. *)

From Stdlib Require Import ZArith List String Ascii Bool Lia.
From Stdlib.Strings Require Import Byte.
From Stdlib Require Import DecimalString.
Import ListNotations.

Local Open Scope Z_scope.
Local Open Scope string_scope.

(** ** JavaScript strings *)

Module Js.

(** [s.split(" ")]: the pieces between single spaces; never the empty array. *)
Fixpoint split_space (s : string) : list string :=
  match s with
  | EmptyString => [EmptyString]
  | String c rest =>
      if Ascii.eqb c " "%char then EmptyString :: split_space rest
      else match split_space rest with
           | [] => [String c EmptyString]
           | w :: ws => String c w :: ws
           end
  end.

(** A value that is a string or [undefined], seen through a test such as
    [!v] or [v && ...]: the string when it is truthy (defined and not
    empty). *)
Definition truthy (v : option string) : option string :=
  match v with
  | Some (String c rest) => Some (String c rest)
  | _ => None
  end.

Fixpoint has_space (s : string) : bool :=
  match s with
  | EmptyString => false
  | String c rest => Ascii.eqb c " "%char || has_space rest
  end.

(** A field of [req.query] or [req.body] that a handler hands to Prisma
    without looking at it: absent, null (a JSON body only), a string, or
    any other value (a number, a boolean, an array, an object). Of such
    another value the model keeps what Prisma makes of it as the filter of
    a nullable string column: [Some p] for a filter object such as
    [{ not: "x" }], [None] when Prisma's validation refuses the value. *)
Inductive Field : Type :=
| undefined
| null
| str (s : string)
| other (filter : option (option string -> bool)).

End Js.

(** ** [crypto.randomBytes(n).toString("hex")] *)

Module Crypto.

Definition hex_digit (n : N) : ascii :=
  match n with
  | 0%N => "0" | 1%N => "1" | 2%N => "2" | 3%N => "3"
  | 4%N => "4" | 5%N => "5" | 6%N => "6" | 7%N => "7"
  | 8%N => "8" | 9%N => "9" | 10%N => "a" | 11%N => "b"
  | 12%N => "c" | 13%N => "d" | 14%N => "e" | _ => "f"
  end%char.

Definition byte_hex (b : byte) (tail : string) : string :=
  let n := Byte.to_N b in
  String (hex_digit (n / 16)) (String (hex_digit (n mod 16)) tail).

Fixpoint toString_hex (bs : list byte) : string :=
  match bs with
  | [] => EmptyString
  | b :: rest => byte_hex b (toString_hex rest)
  end.

(** The first [n] bytes of the request's entropy source. *)
Definition randomBytes (entropy : nat -> byte) (n : nat) : list byte :=
  List.map entropy (List.seq 0 n).

End Crypto.

(** ** The [User] table *)

Module User.

(** Columns [id], [name], [email], [password], [createdAt] are those of the
    migration; the verification and reset columns are the ones the
    handlers read and write. *)
Record t : Type := mk {
  id : Z;
  name : string;
  email : string;
  password : string;
  isVerified : bool;
  verifyToken : option string;
  resetToken : option string;
  resetTokenExpiry : option Z;
  createdAt : Z
}.

(** [data: { isVerified: true, verifyToken: null }] *)
Definition set_verified (u : t) : t :=
  mk (id u) (name u) (email u) (password u) true None
     (resetToken u) (resetTokenExpiry u) (createdAt u).

(** [data: { password: hashedPass }] *)
Definition set_password (h : string) (u : t) : t :=
  mk (id u) (name u) (email u) h (isVerified u) (verifyToken u)
     (resetToken u) (resetTokenExpiry u) (createdAt u).

(** [data: { resetToken, resetTokenExpiry }] *)
Definition set_reset (tok : string) (expiry : Z) (u : t) : t :=
  mk (id u) (name u) (email u) (password u) (isVerified u) (verifyToken u)
     (Some tok) (Some expiry) (createdAt u).

(** [data: { password: hashedPass, resetToken: null, resetTokenExpiry: null }] *)
Definition set_password_clear_reset (h : string) (u : t) : t :=
  mk (id u) (name u) (email u) h (isVerified u) (verifyToken u)
     None None (createdAt u).

End User.

(** Modelled from the spec: the Prisma schema of the [User] model is not
    among the sources (only the first migration is). The spec's data model
    gives the columns the handlers use and their defaults: [isVerified] is a
    boolean defaulting to false, [verifyToken], [resetToken] and
    [resetTokenExpiry] are nullable and so default to null. *)
Definition schema_defaults (id : Z) (name email password : string)
    (verifyToken : string) (createdAt : Z) : User.t :=
  User.mk id name email password false (Some verifyToken) None None createdAt.

Record Store : Type := {
  users : list User.t;
  User_id_seq : Z
}.

(** The table of a fresh database: no row, the serial at its first value. *)
Definition empty_store : Store := {| users := []; User_id_seq := 1 |}.

(** ** Responses and exceptions *)

Inductive Body : Type :=
| json_error (error : string)
| json_message (message : string)
| json_token (token : string).

Record Response : Type := { status : Z; body : Body }.

Inductive Exn : Type :=
| TypeError_null (property : string)
| PrismaUniqueConstraint (field : string)
| PrismaRecordNotFound
| JwtSecretMissing
| MailError (reason : string)
| PrismaValidationError.

(** [err.message] *)
Definition message (e : Exn) : string :=
  match e with
  | TypeError_null p => "Cannot read properties of null (reading '" ++ p ++ "')"
  | PrismaUniqueConstraint f => "Unique constraint failed on the fields: (`" ++ f ++ "`)"
  | PrismaRecordNotFound => "Record to update not found."
  | JwtSecretMissing => "secretOrPrivateKey must have a value"
  | MailError r => r
  | PrismaValidationError => "Invalid value provided."
  end.

(** ** Handler computations *)

Inductive Outcome (A : Type) : Type :=
| Value (a : A)
| Sent (r : Response)
| Thrown (e : Exn).
Arguments Value {A} a.
Arguments Sent {A} r.
Arguments Thrown {A} e.

Definition Handler (A : Type) : Type := Store -> Outcome A * Store.

Definition ret {A} (a : A) : Handler A := fun s => (Value a, s).

Definition bind {A B} (m : Handler A) (k : A -> Handler B) : Handler B :=
  fun s =>
    match m s with
    | (Value a, s') => k a s'
    | (Sent r, s') => (Sent r, s')
    | (Thrown e, s') => (Thrown e, s')
    end.

Declare Scope handler_scope.
Delimit Scope handler_scope with handler.
Notation "x <- m ;; k" := (bind m (fun x => k))
  (at level 61, m at next level, right associativity) : handler_scope.
Notation "m ;; k" := (bind m (fun _ => k))
  (at level 61, right associativity) : handler_scope.

(** [return res.status(code).json(b)] *)
Definition respond {A} (code : Z) (b : Body) : Handler A :=
  fun s => (Sent {| status := code; body := b |}, s).

(** [res.json(b)]: the status stays at Express's default. *)
Definition respond_json {A} (b : Body) : Handler A := respond 200 b.

Definition throw {A} (e : Exn) : Handler A := fun s => (Thrown e, s).

(** [try { ... } catch (err) { res.status(500).json({ error: err.message }) }]
    around a body every path of which ends by sending. *)
Definition try_catch (body : Handler Empty_set) (s : Store) : Response * Store :=
  match body s with
  | (Value v, _) => match v with end
  | (Sent r, s') => (r, s')
  | (Thrown e, s') => ({| status := 500; body := json_error (message e) |}, s')
  end.

(** ** Prisma queries on [prisma.user] *)

Module prisma.

Definition string_is (v : option string) (x : string) : bool :=
  match v with
  | Some y => String.eqb y x
  | None => false
  end.

(** [where: { email }] *)
Definition where_email (email : string) (u : User.t) : bool :=
  String.eqb (User.email u) email.

(** [where: { id }] *)
Definition where_id (id : Z) (u : User.t) : bool :=
  Z.eqb (User.id u) id.

(** [where: { verifyToken: token }] for a string [token]. *)
Definition where_verifyToken (token : string) (u : User.t) : bool :=
  string_is (User.verifyToken u) token.

(** [resetTokenExpiry: { gte: now }]; a null expiry compares false, as in
    SQL. *)
Definition unexpired (now : Z) (u : User.t) : bool :=
  match User.resetTokenExpiry u with
  | Some expiry => Z.geb expiry now
  | None => false
  end.

(** [where: { resetToken: token, resetTokenExpiry: { gte: now } }] for a
    string [token]. *)
Definition where_reset (token : string) (now : Z) (u : User.t) : bool :=
  string_is (User.resetToken u) token && unexpired now u.

(** What Prisma reads in [{ column: v }] for a nullable string column: an
    absent [v] drops the condition, null asks for a null column, a string
    for that value; [None] is a value its validation refuses. *)
Definition column_filter (v : Js.Field) : option (option string -> bool) :=
  match v with
  | Js.undefined => Some (fun _ => true)
  | Js.null => Some (fun c => match c with None => true | Some _ => false end)
  | Js.str s => Some (fun c => string_is c s)
  | Js.other filter => filter
  end.

(** [where: { verifyToken: token }] for the field as the request gave it. *)
Definition where_verifyToken_field (token : Js.Field)
  : option (User.t -> bool) :=
  option_map (fun p u => p (User.verifyToken u)) (column_filter token).

(** [where: { resetToken: token, resetTokenExpiry: { gte: now } }] for the
    field as the request gave it. *)
Definition where_reset_field (token : Js.Field) (now : Z)
  : option (User.t -> bool) :=
  option_map (fun p u => p (User.resetToken u) && unexpired now u)
             (column_filter token).

(** [findFirst({ where })]: throws on a [where] that Prisma refuses, else
    returns the first row, in table order, that matches. *)
Definition findFirst (where_ : option (User.t -> bool))
  : Handler (option User.t) :=
  fun s =>
    match where_ with
    | None => (Thrown PrismaValidationError, s)
    | Some p => (Value (List.find p (users s)), s)
    end.

(** [findUnique({ where })] on a unique column. *)
Definition findUnique (where_ : User.t -> bool) : Handler (option User.t) :=
  fun s => (Value (List.find where_ (users s)), s).

(** [create({ data: { name, email, password, verifyToken } })]: the serial
    gives the id (and is consumed even when the insert is refused), the
    unique index on [email] refuses a duplicate. *)
Definition create (name email password verifyToken : string) (now : Z)
  : Handler User.t :=
  fun s =>
    let next := {| users := users s; User_id_seq := User_id_seq s + 1 |} in
    if List.existsb (where_email email) (users s)
    then (Thrown (PrismaUniqueConstraint "email"), next)
    else
      let u := schema_defaults (User_id_seq s) name email password
                               verifyToken now in
      (Value u, {| users := users s ++ [u];
                   User_id_seq := User_id_seq s + 1 |}).

Definition update_rows (id : Z) (data : User.t -> User.t)
  : list User.t -> list User.t :=
  List.map (fun r => if where_id id r then data r else r).

(** [update({ where: { id }, data })]: throws when no row has the id. *)
Definition update (id : Z) (data : User.t -> User.t) : Handler User.t :=
  fun s =>
    match List.find (where_id id) (users s) with
    | None => (Thrown PrismaRecordNotFound, s)
    | Some u =>
        (Value (data u),
         {| users := update_rows id data (users s);
            User_id_seq := User_id_seq s |})
    end.

End prisma.

(** ** Third-party packages *)

(** [bcrypt.hash(data, rounds)] draws a salt; the draw is the third
    argument. [bcrypt.compare(data, encrypted)]. *)
Class Bcrypt : Type := {
  bcrypt_hash : string -> Z -> list byte -> string;
  bcrypt_compare : string -> string -> bool
}.

(** The registered claims jsonwebtoken handles, in seconds, next to the
    payload [{ id }] the server signs. *)
Record Claims : Type := { claim_id : Z; iat : Z; exp : option Z }.

(** The compact serialisation and its signature check: [jws_verify token key]
    is the payload when [token] is well formed and signed with [key]. *)
Class Jws : Type := {
  jws_sign : Claims -> string -> string;
  jws_verify : string -> string -> option Claims
}.

Inductive VerifyError : Type :=
| JsonWebTokenError (reason : string)
| TokenExpiredError (expiredAt : Z).

Module jwt.

(** [ms("1h") / 1000] *)
Definition expiresIn_1h : Z := 60 * 60.

(** [Math.floor(Date.now() / 1000)] *)
Definition clockTimestamp (now : Z) : Z := now / 1000.

(** [jwt.sign({ id }, secret, { expiresIn: "1h" })] *)
Definition sign `{Jws} (id : Z) (secret : option string) (now : Z)
  : Exn + string :=
  match Js.truthy secret with
  | None => inl JwtSecretMissing
  | Some key =>
      let timestamp := clockTimestamp now in
      inr (jws_sign {| claim_id := id; iat := timestamp;
                       exp := Some (timestamp + expiresIn_1h) |} key)
  end.

(** [jwt.verify(token, secret, callback)]: the arguments the callback gets. *)
Definition verify `{Jws} (token : string) (secret : option string) (now : Z)
  : VerifyError + Claims :=
  match Js.truthy secret with
  | None => inl (JsonWebTokenError "secret or public key must be provided")
  | Some key =>
      match jws_verify token key with
      | None => inl (JsonWebTokenError "invalid token")
      | Some payload =>
          match exp payload with
          | Some e =>
              if Z.geb (clockTimestamp now) e
              then inl (TokenExpiredError e)
              else inr payload
          | None => inr payload
          end
      end
  end.

End jwt.

(** ** What a request draws from outside the process *)

Record Env : Type := {
  Date_now : Z;                      (* milliseconds since the epoch *)
  entropy : nat -> byte;             (* source of [crypto.randomBytes] *)
  salt : list byte;                  (* the salt [bcrypt.hash] draws *)
  sendMail_error : option string     (* [Some r]: the relay rejects with [r] *)
}.

(** [await transporter.sendMail({ ... })] *)
Definition sendMail (env : Env) : Handler unit :=
  match sendMail_error env with
  | Some reason => throw (MailError reason)
  | None => ret tt
  end.

(** [crypto.randomBytes(32).toString("hex")] *)
Definition opaque_token (env : Env) : string :=
  Crypto.toString_hex (Crypto.randomBytes (entropy env) 32).

(** ** The server *)

Section Server.

Context {bcrypt : Bcrypt} {jws : Jws}.

(** [process.env.JWT_SECRET], read by the server and by the middleware. *)
Variable JWT_SECRET : option string.

Local Open Scope handler_scope.

(** [POST /api/signup] *)
Definition signup_body (name email password : string) (env : Env)
  : Handler Empty_set :=
  existing <- prisma.findUnique (prisma.where_email email) ;;
  match existing with
  | Some _ => respond 400 (json_error "Email already registered")
  | None =>
      let hashedPass := bcrypt_hash password 10 (salt env) in
      let verifyToken := opaque_token env in
      _ <- prisma.create name email hashedPass verifyToken (Date_now env) ;;
      sendMail env ;;
      respond_json (json_message
        "Account created successfully! Please check your email to verify your account.")
  end.

Definition signup (name email password : string) (env : Env) :=
  try_catch (signup_body name email password env).

(** [GET /api/verify-email]; [token] is [req.query.token], unchecked. *)
Definition verify_email_body (token : Js.Field) : Handler Empty_set :=
  user <- prisma.findFirst (prisma.where_verifyToken_field token) ;;
  match user with
  | None => respond 400 (json_error "Invalid token")
  | Some u =>
      _ <- prisma.update (User.id u) User.set_verified ;;
      respond_json (json_message
        "Email verified successfully! You can now log in.")
  end.

Definition verify_email (token : Js.Field) :=
  try_catch (verify_email_body token).

(** [POST /api/login] *)
Definition login_body (email password : string) (env : Env)
  : Handler Empty_set :=
  user <- prisma.findUnique (prisma.where_email email) ;;
  match user with
  | None => respond 400 (json_error "User not found")
  | Some u =>
      if negb (User.isVerified u)
      then respond 403 (json_error "Please verify your email before logging in.")
      else if negb (bcrypt_compare password (User.password u))
      then respond 400 (json_error "Invalid credentials")
      else match jwt.sign (User.id u) JWT_SECRET (Date_now env) with
           | inl e => throw e
           | inr token => respond_json (json_token token)
           end
  end.

Definition login (email password : string) (env : Env) :=
  try_catch (login_body email password env).

(** [PUT /api/account/password], after the guard; [id] is [req.user.id].
    Reading [user.password] of a null [user] throws. *)
Definition account_password_body (id : Z) (current newPass : string)
    (env : Env) : Handler Empty_set :=
  user <- prisma.findUnique (prisma.where_id id) ;;
  match user with
  | None => throw (TypeError_null "password")
  | Some u =>
      if negb (bcrypt_compare current (User.password u))
      then respond 401 (json_error "Senha atual incorreta")
      else
        let hashedPass := bcrypt_hash newPass 10 (salt env) in
        _ <- prisma.update id (User.set_password hashedPass) ;;
        respond_json (json_message "Senha alterada com sucesso")
  end.

Definition account_password (id : Z) (current newPass : string) (env : Env) :=
  try_catch (account_password_body id current newPass env).

(** [POST /api/forgot-password] *)
Definition forgot_password_body (email : string) (env : Env)
  : Handler Empty_set :=
  user <- prisma.findUnique (prisma.where_email email) ;;
  match user with
  | None => respond 404 (json_error "User not found")
  | Some u =>
      let resetToken := opaque_token env in
      let resetTokenExpiry := Date_now env + 1000 * 60 * 15 in
      _ <- prisma.update (User.id u)
             (User.set_reset resetToken resetTokenExpiry) ;;
      sendMail env ;;
      respond_json (json_message "Password reset email sent")
  end.

Definition forgot_password (email : string) (env : Env) :=
  try_catch (forgot_password_body email env).

(** [POST /api/reset-password]; [token] is [req.body.token], unchecked. *)
Definition reset_password_body (token : Js.Field) (newPass : string)
    (env : Env) : Handler Empty_set :=
  user <- prisma.findFirst (prisma.where_reset_field token (Date_now env)) ;;
  match user with
  | None => respond 400 (json_error "Invalid or expired token")
  | Some u =>
      let hashedPass := bcrypt_hash newPass 10 (salt env) in
      _ <- prisma.update (User.id u)
             (User.set_password_clear_reset hashedPass) ;;
      respond_json (json_message "Password reset successful")
  end.

Definition reset_password (token : Js.Field) (newPass : string) (env : Env) :=
  try_catch (reset_password_body token newPass env).

(** *** [middleware/auth.js] *)

(** [authHeader && authHeader.split(" ")[1]] *)
Definition bearer_token (authHeader : option string) : option string :=
  match Js.truthy authHeader with
  | None => authHeader
  | Some h => List.nth_error (Js.split_space h) 1
  end.

(** [authenticateToken(req, res, next)]: [next] receives [req.user]. *)
Definition authenticateToken (authHeader : option string) (now : Z)
    (next : Claims -> Store -> Response * Store) (s : Store)
  : Response * Store :=
  match Js.truthy (bearer_token authHeader) with
  | None => ({| status := 401; body := json_error "Token não fornecido" |}, s)
  | Some token =>
      match jwt.verify token JWT_SECRET now with
      | inl _ =>
          ({| status := 403; body := json_error "Token inválido ou expirado" |}, s)
      | inr user => next user s
      end
  end.

(** [app.put("/api/account/password", authenticateToken, handler)] *)
Definition put_account_password (authHeader : option string)
    (current newPass : string) (env : Env) : Store -> Response * Store :=
  authenticateToken authHeader (Date_now env)
    (fun user => account_password (claim_id user) current newPass env).

(** *** The account routes as one transition system *)

Inductive Call : Type :=
| POST_signup (name email password : string)
| GET_verify_email (token : Js.Field)
| POST_login (email password : string)
| PUT_account_password (authHeader : option string) (current newPass : string)
| POST_forgot_password (email : string)
| POST_reset_password (token : Js.Field) (newPass : string).

Definition serve (c : Call) (env : Env) : Store -> Response * Store :=
  match c with
  | POST_signup name email password => signup name email password env
  | GET_verify_email token => verify_email token
  | POST_login email password => login email password env
  | PUT_account_password h current newPass =>
      put_account_password h current newPass env
  | POST_forgot_password email => forgot_password email env
  | POST_reset_password token newPass => reset_password token newPass env
  end.

(** The tables the routes can produce from a fresh database. *)
Inductive reachable : Store -> Prop :=
| reachable_fresh : reachable empty_store
| reachable_serve c env s :
    reachable s -> reachable (snd (serve c env s)).

End Server.

Arguments reachable {bcrypt jws} JWT_SECRET _.

(** ** Reference instances of the packages

    Small executable stand-ins used to run the server on concrete requests:
    a hash that prefixes the salt in hex, and a token codec that writes the
    key and the claims in decimal. *)

Module Reference.

Definition hash (data : string) (rounds : Z) (salt : list byte) : string :=
  Crypto.toString_hex salt ++ "$" ++ data.

Fixpoint after_dollar (s : string) : string :=
  match s with
  | EmptyString => EmptyString
  | String c rest => if Ascii.eqb c "$"%char then rest else after_dollar rest
  end.

Definition compare (data encrypted : string) : bool :=
  String.eqb (after_dollar encrypted) data.

Definition bcrypt : Bcrypt :=
  {| bcrypt_hash := hash; bcrypt_compare := compare |}.

Definition show (z : Z) : string := NilZero.string_of_int (Z.to_int z).

Definition read (s : string) : option Z :=
  option_map Z.of_int (NilZero.int_of_string s).

Fixpoint split_dot (s : string) : list string :=
  match s with
  | EmptyString => [EmptyString]
  | String c rest =>
      if Ascii.eqb c "."%char then EmptyString :: split_dot rest
      else match split_dot rest with
           | [] => [String c EmptyString]
           | w :: ws => String c w :: ws
           end
  end.

Definition encode (c : Claims) (key : string) : string :=
  key ++ "." ++ show (claim_id c) ++ "." ++ show (iat c) ++ "."
      ++ match exp c with Some e => show e | None => "never" end.

Definition decode (token key : string) : option Claims :=
  match split_dot token with
  | [k; i; t; e] =>
      if String.eqb k key then
        match read i, read t with
        | Some i', Some t' =>
            if String.eqb e "never"
            then Some {| claim_id := i'; iat := t'; exp := None |}
            else match read e with
                 | Some e' => Some {| claim_id := i'; iat := t'; exp := Some e' |}
                 | None => None
                 end
        | _, _ => None
        end
      else None
  | _ => None
  end.

Definition jws : Jws := {| jws_sign := encode; jws_verify := decode |}.

Definition secret : option string := Some "s3cr3t".

(** An environment with fixed draws. *)
Definition env_at (now : Z) (b : byte) : Env :=
  {| Date_now := now; entropy := fun _ => b; salt := [b];
     sendMail_error := None |}.

End Reference.

(** ** Vocabulary of the statements *)

(** The table after [update({ where: { id }, data })] went through. *)
Definition updated (s : Store) (id : Z) (data : User.t -> User.t) : Store :=
  {| users := prisma.update_rows id data (users s);
     User_id_seq := User_id_seq s |}.

(** The response of a handler that ends with a mail dispatch. *)
Definition after_mail (env : Env) (ok : string) : Response :=
  match sendMail_error env with
  | Some reason => {| status := 500; body := json_error reason |}
  | None => {| status := 200; body := json_message ok |}
  end.

(** A row whose reset token is [token] and has not expired at [now]:
    the expiry instant itself still counts. *)
Definition redeemable (token : string) (now : Z) (u : User.t) : Prop :=
  User.resetToken u = Some token /\
  exists expiry, User.resetTokenExpiry u = Some expiry /\ now <= expiry.

(** The reading of the specification: the expiry is strictly later than [now]. *)
Definition strictly_unexpired (token : string) (now : Z) (u : User.t) : Prop :=
  User.resetToken u = Some token /\
  exists expiry, User.resetTokenExpiry u = Some expiry /\ now < expiry.

(** A verified account whose reset token ["r1"] expires at instant 1000. *)
Definition expiring_store : Store :=
  {| users := [User.mk 1 "Ann" "ann@x.com" "01$pw1" true None
                 (Some "r1") (Some 1000) 10];
     User_id_seq := 2 |}.

(** A handler that would answer 204 and wipe the table, were it invoked. *)
Definition wipe (_ : Claims) (_ : Store) : Response * Store :=
  ({| status := 204; body := json_message "wiped" |}, empty_store).

(** The request carries, in the standard header, a session token that the
    guard verifies at [now] to the payload [c]. *)
Definition authenticated {jws : Jws} (JWT_SECRET : option string)
    (authHeader : option string) (now : Z) (c : Claims) : Prop :=
  exists tok key,
    authHeader = Some ("Bearer " ++ tok) /\
    tok <> EmptyString /\ Js.has_space tok = false /\
    JWT_SECRET = Some key /\ key <> EmptyString /\
    jws_verify tok key = Some c /\
    (forall e, exp c = Some e -> now / 1000 < e).

(** Exactly one of: (a) the verify token is present; (b) the account is
    verified and the verify token is null. *)
Definition verification_settled (u : User.t) : Prop :=
  let a := User.verifyToken u <> None in
  let b := User.isVerified u = true /\ User.verifyToken u = None in
  (a /\ ~ b) \/ (b /\ ~ a).

(** The constraints of the migration: [id] is the primary key, drawn from
    the serial, and [email] carries a unique index. *)
Definition well_formed (s : Store) : Prop :=
  NoDup (List.map User.id (users s)) /\
  NoDup (List.map User.email (users s)) /\
  forall u, In u (users s) -> User.id u < User_id_seq s.

(** The [data] objects the handlers pass to [update]. *)
Inductive Write : (User.t -> User.t) -> Prop :=
| write_verified : Write User.set_verified
| write_password h : Write (User.set_password h)
| write_reset tok expiry : Write (User.set_reset tok expiry)
| write_password_clear_reset h : Write (User.set_password_clear_reset h).

(** What one request can do to the table. *)
Inductive effect (s : Store) : Store -> Prop :=
| effect_none : effect s s
| effect_update id data : Write data -> effect s (updated s id data)
| effect_insert name email password verifyToken now :
    (forall u, In u (users s) -> User.email u <> email) ->
    effect s {| users := (users s ++
                          [schema_defaults (User_id_seq s) name email password
                             verifyToken now])%list;
                User_id_seq := User_id_seq s + 1 |}.

(** The table after Ann signed up at instant 1000 and followed the link. *)
Definition signed_up_and_verified : Store :=
  snd (serve (bcrypt := Reference.bcrypt) (jws := Reference.jws)
         Reference.secret
         (GET_verify_email
            (Js.str
               "0101010101010101010101010101010101010101010101010101010101010101"))
         (Reference.env_at 2000 x02)
         (snd (serve (bcrypt := Reference.bcrypt) (jws := Reference.jws)
                 Reference.secret (POST_signup "Ann" "ann@x.com" "pw1")
                 (Reference.env_at 1000 x01) empty_store))).

(** An account that signed up and has not followed the link yet. *)
Definition pending_store : Store :=
  {| users := [User.mk 1 "Ann" "ann@x.com" "01$pw1" false (Some "v1")
                 None None 1000];
     User_id_seq := 2 |}.

(** ** More of the server: vocabulary and routes beside the token core *)

(** The table after a list of requests, served one after the other. *)
Fixpoint serve_all {bcrypt : Bcrypt} {jws : Jws} (JWT_SECRET : option string)
    (calls : list (Call * Env)) (s : Store) : Store :=
  match calls with
  | [] => s
  | (c, env) :: rest =>
      serve_all JWT_SECRET rest (snd (serve JWT_SECRET c env s))
  end.

(** [resetToken] and [resetTokenExpiry] are null together or set together. *)
Definition reset_pair_consistent (u : User.t) : Prop :=
  (User.resetToken u = None /\ User.resetTokenExpiry u = None) \/
  (exists tok expiry,
     User.resetToken u = Some tok /\ User.resetTokenExpiry u = Some expiry).

(** The [password] column holds what [bcrypt.hash(_, 10)] returned. *)
Definition password_is_hash {bcrypt : Bcrypt} (u : User.t) : Prop :=
  exists data salt, User.password u = bcrypt_hash data 10 salt.

(** What stays of an account whatever is served: its identity, and its
    verification once obtained. *)
Definition same_account (u u' : User.t) : Prop :=
  User.id u' = User.id u /\ User.name u' = User.name u /\
  User.email u' = User.email u /\ User.createdAt u' = User.createdAt u /\
  (User.isVerified u = true -> User.isVerified u' = true).

(** The rows of [s] are still there in [s'], in place, followed by the
    rows inserted since; the serial has not gone back. *)
Definition grows_into (s s' : Store) : Prop :=
  User_id_seq s <= User_id_seq s' /\
  exists kept added,
    users s' = (kept ++ added)%list /\ List.Forall2 same_account (users s) kept.

(** [pieces.join(" ")] *)
Fixpoint join_space (pieces : list string) : string :=
  match pieces with
  | [] => EmptyString
  | [w] => w
  | w :: rest => w ++ String " " (join_space rest)
  end.

(** One of the sixteen characters 0-9, a-f. *)
Definition is_hex_digit (c : ascii) : bool :=
  List.existsb (Ascii.eqb c) (list_ascii_of_string "0123456789abcdef").

Fixpoint all_chars (p : ascii -> bool) (s : string) : bool :=
  match s with
  | EmptyString => true
  | String c rest => p c && all_chars p rest
  end.

(** The value of a hexadecimal digit, and the byte two digits spell. *)
Definition hex_value (c : ascii) : N :=
  let n := Ascii.N_of_ascii c in
  if (n <? 58)%N then (n - 48)%N else (n - 87)%N.

Definition byte_of_hex (hi lo : ascii) : option byte :=
  Byte.of_N (hex_value hi * 16 + hex_value lo).

(** *** [PUT /api/images/:id]: the new name without its extension *)

(** [[^/.]] *)
Definition extension_char (c : ascii) : bool :=
  negb (Ascii.eqb c "/"%char) && negb (Ascii.eqb c "."%char).

(** [newFilename.replace(/\.[^/.]+$/, '')]: the leftmost place where a dot
    is followed, up to the end, by one or more characters that are neither
    a slash nor a dot is where the string is cut. *)
Fixpoint safeName (newFilename : string) : string :=
  match newFilename with
  | EmptyString => EmptyString
  | String c rest =>
      if Ascii.eqb c "."%char
         && match rest with EmptyString => false | String _ _ => true end
         && all_chars extension_char rest
      then EmptyString
      else String c (safeName rest)
  end.

Fixpoint has_dot (s : string) : bool :=
  match s with
  | EmptyString => false
  | String c rest => Ascii.eqb c "."%char || has_dot rest
  end.

(** *** [PUT /api/account] and [GET /api/account], after the guard *)

(** [select: { id: true, name: true, email: true }] *)
Definition select_profile (u : User.t) : Z * string * string :=
  (User.id u, User.name u, User.email u).

Inductive AccountBody : Type :=
| account_error (error : string)
| account_user (user : option (Z * string * string))
| account_updated (message : string) (user : Z * string * string).

Record AccountResponse : Type := {
  account_status : Z;
  account_body : AccountBody
}.

(** [data: { name, email }] *)
Definition set_profile (name email : string) (u : User.t) : User.t :=
  User.mk (User.id u) name email (User.password u) (User.isVerified u)
    (User.verifyToken u) (User.resetToken u) (User.resetTokenExpiry u)
    (User.createdAt u).

(** [prisma.user.update({ where: { id }, data: { name, email }, select })],
    for a body that gives both fields as strings: throws when no row has
    the id, and when the unique index on [email] finds the new email on
    another row. *)
Definition update_profile (id : Z) (name email : string) (s : Store)
  : Exn + (Z * string * string) * Store :=
  match List.find (prisma.where_id id) (users s) with
  | None => inl PrismaRecordNotFound
  | Some u =>
      if List.existsb
           (fun r => prisma.where_email email r && negb (prisma.where_id id r))
           (users s)
      then inl (PrismaUniqueConstraint "email")
      else inr (select_profile (set_profile name email u),
                updated s id (set_profile name email))
  end.

(** [PUT /api/account]; [id] is [req.user.id]. *)
Definition put_account (id : Z) (name email : string) (s : Store)
  : AccountResponse * Store :=
  match update_profile id name email s with
  | inr (user, s') =>
      ({| account_status := 200;
          account_body := account_updated "Conta atualizada com sucesso" user |},
       s')
  | inl e =>
      ({| account_status := 500; account_body := account_error (message e) |}, s)
  end.

(** [GET /api/account] of the first server file: a missing account is a 404. *)
Definition get_account (id : Z) (s : Store) : AccountResponse * Store :=
  match List.find (prisma.where_id id) (users s) with
  | None =>
      ({| account_status := 404;
          account_body := account_error "Usuário não encontrado" |}, s)
  | Some u =>
      ({| account_status := 200;
          account_body := account_user (Some (select_profile u)) |}, s)
  end.

(** [GET /api/account] of the second server file: [res.json({ user })]
    whatever [findUnique] returned. *)
Definition get_account_second (id : Z) (s : Store) : AccountResponse * Store :=
  ({| account_status := 200;
      account_body :=
        account_user
          (option_map select_profile
             (List.find (prisma.where_id id) (users s))) |}, s).

(** *** [DELETE /api/images/:id], after the guard *)

Module Image.

(** The columns of the migration. *)
Record t : Type := mk {
  id : Z;
  filename : string;
  fileUrl : string;
  fileType : option string;
  dimensions : option string;
  createdAt : Z;
  userId : Z
}.

End Image.

(** [where: { id: Number(id), userId: req.user.id }] *)
Definition where_image (id userId : Z) (i : Image.t) : bool :=
  Z.eqb (Image.id i) id && Z.eqb (Image.userId i) userId.

(** The values of a 32-bit [INTEGER] column. *)
Definition int4 (n : Z) : bool :=
  Z.leb (-2147483648) n && Z.leb n 2147483647.

(** What [where: { id: Number(id), userId }] is to Prisma. [id] stands for
    [Number(req.params.id)] as Prisma reads it: [Some n] when it makes the
    integer [n] of the number, [None] when it refuses it (not a number);
    an integer that does not fit the column is refused too. *)
Definition where_image_field (id : option Z) (userId : Z)
  : option (Image.t -> bool) :=
  match id with
  | Some n => if int4 n then Some (where_image n userId) else None
  | None => None
  end.

(** The handler of the first server file, on the [Image] table; [user] is
    [req.user]. A refused [where] throws, and the catch-all answers 500.
    [prisma.image.delete({ where: { id: img.id } })] removes the row with
    that primary key. *)
Definition delete_image (user : Claims) (id : option Z)
    (images : list Image.t) : Response * list Image.t :=
  match where_image_field id (claim_id user) with
  | None =>
      ({| status := 500;
          body := json_error (message PrismaValidationError) |}, images)
  | Some p =>
      match List.find p images with
      | None =>
          ({| status := 404;
              body := json_error "Imagem não encontrada ou não autorizada" |},
           images)
      | Some img =>
          ({| status := 200;
              body := json_message "Imagem deletada com sucesso!" |},
           List.filter (fun i => negb (Z.eqb (Image.id i) (Image.id img)))
             images)
      end
  end.

(** Two images of two owners. *)
Definition two_images : list Image.t :=
  [Image.mk 1 "10-a.png" "https://devimagehost.netlify.app/uploads/10-a.png"
     None None 10 1;
   Image.mk 2 "20-b.png" "https://devimagehost.netlify.app/uploads/20-b.png"
     None None 20 2].

(** A second account beside Ann's. *)
Definition two_accounts : Store :=
  {| users := [User.mk 1 "Ann" "ann@x.com" "01$pw1" true None None None 10;
               User.mk 2 "Bob" "bob@x.com" "02$pw2" true None None None 20];
     User_id_seq := 3 |}.

(** * Properties *)

(** ** Rows and queries *)

Section Rows.

Lemma string_is_true v x : prisma.string_is v x = true <-> v = Some x.
Proof.
  destruct v as [y|]; simpl.
  - rewrite String.eqb_eq. split; congruence.
  - split; discriminate.
Qed.

Lemma where_email_true e u : prisma.where_email e u = true <-> User.email u = e.
Proof. apply String.eqb_eq. Qed.

Lemma where_id_true i u : prisma.where_id i u = true <-> User.id u = i.
Proof. apply Z.eqb_eq. Qed.

Lemma where_verifyToken_true t u :
  prisma.where_verifyToken t u = true <-> User.verifyToken u = Some t.
Proof. apply string_is_true. Qed.

Lemma where_reset_true t now u :
  prisma.where_reset t now u = true <->
  User.resetToken u = Some t /\
  exists expiry, User.resetTokenExpiry u = Some expiry /\ now <= expiry.
Proof.
  unfold prisma.where_reset, prisma.unexpired.
  rewrite andb_true_iff, string_is_true.
  destruct (User.resetTokenExpiry u) as [e|].
  - rewrite Z.geb_le. split.
    + intros [Ht He]. split; [exact Ht | exists e; auto].
    + intros [Ht [e' [He' Hle]]]. injection He' as ->. auto.
  - split.
    + intros [_ Hf]. discriminate.
    + intros [_ [e' [He' _]]]. discriminate.
Qed.

(** The row [find] returns splits the table, and nothing before it matches. *)
Lemma find_split (p : User.t -> bool) l u :
  List.find p l = Some u ->
  exists l1 l2, l = (l1 ++ u :: l2)%list /\ p u = true /\
                forall v, In v l1 -> p v = false.
Proof.
  induction l as [|a l IH]; simpl; [discriminate|].
  destruct (p a) eqn:Ha.
  - intros [= ->]. exists [], l. simpl. intuition.
  - intros Hf. destruct (IH Hf) as (l1 & l2 & -> & Hu & Hbefore).
    exists (a :: l1), l2. simpl. repeat split; auto.
    intros v [<-|Hv]; auto.
Qed.

Lemma find_first_match (p : User.t -> bool) l1 u l2 :
  (forall v, In v l1 -> p v = false) -> p u = true ->
  List.find p (l1 ++ u :: l2)%list = Some u.
Proof.
  induction l1 as [|a l1 IH]; simpl; intros Hbefore Hu.
  - rewrite Hu. reflexivity.
  - rewrite (Hbefore a (or_introl eq_refl)). apply IH; auto.
Qed.

Lemma find_none_iff (p : User.t -> bool) l :
  List.find p l = None <-> forall v, In v l -> p v = false.
Proof.
  split.
  - intros H v Hv. exact (List.find_none p l H v Hv).
  - induction l as [|a l IH]; simpl; intros H; [reflexivity|].
    rewrite (H a (or_introl eq_refl)). apply IH. auto.
Qed.

(** A row of the table is found by its own id, whatever its position. *)
Lemma find_id_present l u :
  In u l -> exists v, List.find (prisma.where_id (User.id u)) l = Some v.
Proof.
  intros Hin.
  destruct (List.find (prisma.where_id (User.id u)) l) as [v|] eqn:Hf; eauto.
  rewrite find_none_iff in Hf. specialize (Hf u Hin).
  unfold prisma.where_id in Hf. rewrite Z.eqb_refl in Hf. discriminate.
Qed.

(** With a unique column, looking up a row's own key finds that row. *)
Lemma find_unique_key {K} (key : User.t -> K) (eqb : K -> K -> bool) l u :
  (forall a b, eqb a b = true <-> a = b) ->
  NoDup (List.map key l) -> In u l ->
  List.find (fun v => eqb (key v) (key u)) l = Some u.
Proof.
  intros Heqb. induction l as [|a l IH]; simpl; intros Hnd Hin; [tauto|].
  inversion Hnd as [|? ? Hnotin Hnd']; subst.
  destruct Hin as [->|Hin].
  - rewrite (proj2 (Heqb _ _) eq_refl). reflexivity.
  - destruct (eqb (key a) (key u)) eqn:Hk.
    + apply Heqb in Hk. exfalso. apply Hnotin. rewrite Hk.
      apply List.in_map. exact Hin.
    + apply IH; assumption.
Qed.

Lemma find_by_email l u :
  NoDup (List.map User.email l) -> In u l ->
  List.find (prisma.where_email (User.email u)) l = Some u.
Proof. apply (find_unique_key User.email String.eqb), String.eqb_eq. Qed.

Lemma find_by_id l u :
  NoDup (List.map User.id l) -> In u l ->
  List.find (prisma.where_id (User.id u)) l = Some u.
Proof. apply (find_unique_key User.id Z.eqb), Z.eqb_eq. Qed.

Lemma update_rows_absent i data l :
  (forall v, In v l -> User.id v <> i) -> prisma.update_rows i data l = l.
Proof.
  unfold prisma.update_rows.
  induction l as [|a l IH]; simpl; intros H; [reflexivity|].
  rewrite IH by auto.
  destruct (prisma.where_id i a) eqn:Ha; [|reflexivity].
  apply where_id_true in Ha. exfalso. exact (H a (or_introl eq_refl) Ha).
Qed.

(** With [id] a primary key, an update touches the one row that has it. *)
Lemma update_rows_unique data l1 u l2 :
  NoDup (List.map User.id (l1 ++ u :: l2)%list) ->
  prisma.update_rows (User.id u) data (l1 ++ u :: l2)%list
  = (l1 ++ data u :: l2)%list.
Proof.
  intros Hnd.
  assert (Hothers : forall v, In v (l1 ++ l2)%list -> User.id v <> User.id u).
  { rewrite List.map_app in Hnd. simpl in Hnd.
    apply List.NoDup_remove_2 in Hnd. rewrite <- List.map_app in Hnd.
    intros v Hv Heq. apply Hnd. rewrite <- Heq. apply List.in_map. exact Hv. }
  unfold prisma.update_rows. rewrite List.map_app. simpl.
  unfold prisma.where_id at 2. rewrite Z.eqb_refl.
  fold (prisma.update_rows (User.id u) data l1).
  fold (prisma.update_rows (User.id u) data l2).
  rewrite !update_rows_absent; [reflexivity| |];
    intros v Hv; apply Hothers, List.in_or_app; tauto.
Qed.

(** A column the update does not write keeps its values, row by row. *)
Lemma update_rows_column {K} (col : User.t -> K) i data l :
  (forall u, col (data u) = col u) ->
  List.map col (prisma.update_rows i data l) = List.map col l.
Proof.
  intros Hcol. unfold prisma.update_rows. rewrite List.map_map.
  apply List.map_ext. intros a. destruct (prisma.where_id i a); auto.
Qed.

Lemma in_update_rows i data l v :
  In v (prisma.update_rows i data l) ->
  exists u, In u l /\ (v = u \/ v = data u).
Proof.
  unfold prisma.update_rows. rewrite List.in_map_iff.
  intros (u & Hv & Hu). exists u. split; [exact Hu|].
  destruct (prisma.where_id i u); auto.
Qed.

End Rows.

(** ** What each route computes *)

Section Routes.

Context {bcrypt : Bcrypt} {jws : Jws}.
Variable JWT_SECRET : option string.

(** An update by the id of a row just read never misses. *)
Lemma update_found (u : User.t) data s :
  In u (users s) ->
  exists v, prisma.update (User.id u) data s
            = (Value v, updated s (User.id u) data).
Proof.
  intros Hin. unfold prisma.update.
  destruct (find_id_present _ _ Hin) as [v ->]. eauto.
Qed.

Ltac run_update H :=
  cbv beta iota;
  match goal with
  | |- context [prisma.update (User.id ?u) ?d ?s] =>
      let v := fresh "v" in
      let E := fresh "E" in
      destruct (update_found u d s H) as [v E]; rewrite E; clear E
  end.

(** The two routes that hand a request field to [findFirst]. *)
Lemma verify_email_field token s :
  verify_email token s =
  match prisma.where_verifyToken_field token with
  | None =>
      ({| status := 500;
          body := json_error (message PrismaValidationError) |}, s)
  | Some p =>
      match List.find p (users s) with
      | None => ({| status := 400; body := json_error "Invalid token" |}, s)
      | Some u =>
          ({| status := 200;
              body := json_message
                        "Email verified successfully! You can now log in." |},
           updated s (User.id u) User.set_verified)
      end
  end.
Proof.
  unfold verify_email, try_catch, verify_email_body, bind, prisma.findFirst.
  destruct (prisma.where_verifyToken_field token) as [p|]; [|reflexivity].
  destruct (List.find p (users s)) as [u|] eqn:Hf; [|reflexivity].
  apply List.find_some in Hf as [Hin _].
  run_update Hin. reflexivity.
Qed.

Lemma reset_password_field token newPass env s :
  reset_password token newPass env s =
  match prisma.where_reset_field token (Date_now env) with
  | None =>
      ({| status := 500;
          body := json_error (message PrismaValidationError) |}, s)
  | Some p =>
      match List.find p (users s) with
      | None =>
          ({| status := 400; body := json_error "Invalid or expired token" |},
           s)
      | Some u =>
          ({| status := 200;
              body := json_message "Password reset successful" |},
           updated s (User.id u)
             (User.set_password_clear_reset
                (bcrypt_hash newPass 10 (salt env))))
      end
  end.
Proof.
  unfold reset_password, try_catch, reset_password_body, bind, prisma.findFirst.
  destruct (prisma.where_reset_field token (Date_now env)) as [p|];
    [|reflexivity].
  destruct (List.find p (users s)) as [u|] eqn:Hf; [|reflexivity].
  apply List.find_some in Hf as [Hin _].
  run_update Hin. reflexivity.
Qed.

(** The same for a token given as a string. *)
Lemma verify_email_run (token : string) s :
  verify_email (Js.str token) s =
  match List.find (prisma.where_verifyToken token) (users s) with
  | None => ({| status := 400; body := json_error "Invalid token" |}, s)
  | Some u =>
      ({| status := 200;
          body := json_message "Email verified successfully! You can now log in." |},
       updated s (User.id u) User.set_verified)
  end.
Proof. rewrite verify_email_field. reflexivity. Qed.

Lemma reset_password_run (token : string) newPass env s :
  reset_password (Js.str token) newPass env s =
  match List.find (prisma.where_reset token (Date_now env)) (users s) with
  | None =>
      ({| status := 400; body := json_error "Invalid or expired token" |}, s)
  | Some u =>
      ({| status := 200; body := json_message "Password reset successful" |},
       updated s (User.id u)
         (User.set_password_clear_reset (bcrypt_hash newPass 10 (salt env))))
  end.
Proof. rewrite reset_password_field. reflexivity. Qed.

Lemma forgot_password_run email env s :
  forgot_password email env s =
  match List.find (prisma.where_email email) (users s) with
  | None => ({| status := 404; body := json_error "User not found" |}, s)
  | Some u =>
      (after_mail env "Password reset email sent",
       updated s (User.id u)
         (User.set_reset (opaque_token env) (Date_now env + 900000)))
  end.
Proof.
  unfold forgot_password, try_catch, forgot_password_body, bind,
    prisma.findUnique, after_mail, sendMail.
  destruct (List.find _ (users s)) as [u|] eqn:Hf; [|reflexivity].
  apply List.find_some in Hf as [Hin _].
  run_update Hin. change (1000 * 60 * 15) with 900000.
  destruct (sendMail_error env); reflexivity.
Qed.

Lemma signup_run name email password env s :
  signup name email password env s =
  match List.find (prisma.where_email email) (users s) with
  | Some _ =>
      ({| status := 400; body := json_error "Email already registered" |}, s)
  | None =>
      (after_mail env
         "Account created successfully! Please check your email to verify your account.",
       {| users := users s ++
                   [schema_defaults (User_id_seq s) name email
                      (bcrypt_hash password 10 (salt env))
                      (opaque_token env) (Date_now env)];
          User_id_seq := User_id_seq s + 1 |})
  end.
Proof.
  unfold signup, try_catch, signup_body, bind, prisma.findUnique,
    prisma.create, after_mail, sendMail.
  destruct (List.find _ (users s)) as [u|] eqn:Hf; [reflexivity|].
  assert (Hex : List.existsb (prisma.where_email email) (users s) = false).
  { destruct (List.existsb _ _) eqn:Hex; [|reflexivity].
    apply List.existsb_exists in Hex as (v & Hv & Hp).
    rewrite (List.find_none _ _ Hf v Hv) in Hp. discriminate. }
  rewrite Hex. destruct (sendMail_error env); reflexivity.
Qed.

Lemma login_keeps_store email password env s :
  snd (login JWT_SECRET email password env s) = s.
Proof.
  unfold login, try_catch, login_body, bind, prisma.findUnique.
  destruct (List.find _ (users s)) as [u|]; [|reflexivity].
  destruct (User.isVerified u); [|reflexivity].
  destruct (bcrypt_compare password (User.password u)); [|reflexivity].
  simpl. destruct (jwt.sign _ _ _); reflexivity.
Qed.

Lemma account_password_run id current newPass env s :
  account_password id current newPass env s =
  match List.find (prisma.where_id id) (users s) with
  | None =>
      ({| status := 500;
          body := json_error (message (TypeError_null "password")) |}, s)
  | Some u =>
      if bcrypt_compare current (User.password u)
      then ({| status := 200; body := json_message "Senha alterada com sucesso" |},
            updated s id (User.set_password (bcrypt_hash newPass 10 (salt env))))
      else ({| status := 401; body := json_error "Senha atual incorreta" |}, s)
  end.
Proof.
  unfold account_password, try_catch, account_password_body, bind,
    prisma.findUnique.
  destruct (List.find _ (users s)) as [u|] eqn:Hf; [|reflexivity].
  destruct (bcrypt_compare current (User.password u)); [|reflexivity].
  simpl. unfold prisma.update. rewrite Hf. reflexivity.
Qed.

End Routes.

(** ** Email verification *)

Section VerifyEmail.

Local Abbreviation ok :=
  {| status := 200;
     body := json_message "Email verified successfully! You can now log in." |}.
Local Abbreviation invalid :=
  {| status := 400; body := json_error "Invalid token" |}.

Lemma not_token_false t u :
  User.verifyToken u <> Some t -> prisma.where_verifyToken t u = false.
Proof.
  intros H. destruct (prisma.where_verifyToken t u) eqn:E; [|reflexivity].
  apply where_verifyToken_true in E. contradiction.
Qed.

(** No row holds the token: the request is refused and nothing is written. *)
Lemma verify_email_unknown s token :
  (forall v, In v (users s) -> User.verifyToken v <> Some token) ->
  verify_email (Js.str token) s = (invalid, s).
Proof.
  intros Hnone. rewrite verify_email_run.
  replace (List.find _ (users s)) with (@None User.t); [reflexivity|].
  symmetry. apply find_none_iff. intros v Hv. apply not_token_false; auto.
Qed.

(** X23: for every string given as token to the verify route, when exactly
    one user holds it as verifyToken that user's isVerified becomes true
    and its verifyToken null, with a 200; when no user holds it the answer
    is 400 "Invalid token" and no record changes. So two runs in a row with
    the same string succeed at most once, and the second run answers
    "Invalid token". The primary key [id] is taken as unique. *)
Theorem verify_email_consumes_token (s : Store) (token : string) :
  NoDup (List.map User.id (users s)) ->
  (forall l1 u l2,
      users s = (l1 ++ u :: l2)%list ->
      User.verifyToken u = Some token ->
      (forall v, In v (l1 ++ l2)%list -> User.verifyToken v <> Some token) ->
      let u' := User.mk (User.id u) (User.name u) (User.email u)
                  (User.password u) true None
                  (User.resetToken u) (User.resetTokenExpiry u)
                  (User.createdAt u) in
      let s' := {| users := (l1 ++ u' :: l2)%list;
                   User_id_seq := User_id_seq s |} in
      verify_email (Js.str token) s = (ok, s') /\
      verify_email (Js.str token) s' = (invalid, s'))
  /\
  ((forall v, In v (users s) -> User.verifyToken v <> Some token) ->
   verify_email (Js.str token) s = (invalid, s) /\
   verify_email (Js.str token) (snd (verify_email (Js.str token) s)) = (invalid, s)).
Proof.
  intros Hpk. split.
  - intros l1 u l2 Hs Hu Hothers u' s'.
    assert (Hl1 : forall v, In v l1 -> User.verifyToken v <> Some token)
      by (intros v Hv; apply Hothers, List.in_or_app; auto).
    assert (Hl2 : forall v, In v l2 -> User.verifyToken v <> Some token)
      by (intros v Hv; apply Hothers, List.in_or_app; auto).
    split.
    + rewrite verify_email_run, Hs.
      rewrite (find_first_match _ l1 u l2).
      * unfold updated. rewrite Hs. rewrite Hs in Hpk.
        rewrite (update_rows_unique _ _ _ _ Hpk). reflexivity.
      * intros v Hv. apply not_token_false; auto.
      * apply where_verifyToken_true; exact Hu.
    + apply verify_email_unknown. simpl. intros v Hv.
      apply List.in_app_or in Hv as [Hv|[<-|Hv]]; auto.
      simpl. discriminate.
  - intros Hnone. rewrite (verify_email_unknown s token Hnone). simpl.
    split; [reflexivity|]. apply verify_email_unknown; exact Hnone.
Qed.

End VerifyEmail.

Lemma verify_email_consumes_token_witness :
  NoDup (List.map User.id (users pending_store))
  /\ verify_email (Js.str "v1") pending_store
     = ({| status := 200;
           body := json_message
                     "Email verified successfully! You can now log in." |},
        {| users := [User.mk 1 "Ann" "ann@x.com" "01$pw1" true None
                       None None 1000];
           User_id_seq := 2 |})
  /\ verify_email (Js.str "v1")
       {| users := [User.mk 1 "Ann" "ann@x.com" "01$pw1" true None
                      None None 1000];
          User_id_seq := 2 |}
     = ({| status := 400; body := json_error "Invalid token" |},
        {| users := [User.mk 1 "Ann" "ann@x.com" "01$pw1" true None
                       None None 1000];
           User_id_seq := 2 |}).
Proof.
  assert (Hpk : NoDup (List.map User.id (users pending_store))).
  { simpl. constructor; [simpl; tauto | constructor]. }
  split; [exact Hpk|].
  destruct (verify_email_consumes_token pending_store "v1" Hpk) as [Hone _].
  apply (Hone [] (User.mk 1 "Ann" "ann@x.com" "01$pw1" false (Some "v1")
                    None None 1000) []).
  - reflexivity.
  - reflexivity.
  - intros v [].
Defined.

(** C2 (code bug): a verify-email request without a token is not refused.
    The handler hands the absent field to the lookup, which then has no
    condition left and returns the first account of the table: the answer
    is 200 and that account is verified, whether or not it, or any account,
    holds a verify token. The claim asks for 400 "Invalid token" and an
    unchanged table, since no user has the token. *)
Theorem verify_email_without_token (s : Store) (u : User.t)
    (rest : list User.t) :
  NoDup (List.map User.id (users s)) ->
  users s = u :: rest ->
  verify_email Js.undefined s
  = ({| status := 200;
        body := json_message
                  "Email verified successfully! You can now log in." |},
     {| users := User.mk (User.id u) (User.name u) (User.email u)
                   (User.password u) true None
                   (User.resetToken u) (User.resetTokenExpiry u)
                   (User.createdAt u) :: rest;
        User_id_seq := User_id_seq s |}).
Proof.
  intros Hpk Hs. rewrite verify_email_field. simpl. rewrite Hs. simpl.
  unfold updated. rewrite Hs. rewrite Hs in Hpk.
  pose proof (update_rows_unique User.set_verified [] u rest Hpk) as E.
  simpl List.app in E. rewrite E. reflexivity.
Qed.

Lemma verify_email_without_token_witness :
  (forall v, In v (users pending_store) -> User.verifyToken v = Some "v1")
  /\ verify_email Js.undefined pending_store
     = ({| status := 200;
           body := json_message
                     "Email verified successfully! You can now log in." |},
        {| users := [User.mk 1 "Ann" "ann@x.com" "01$pw1" true None
                       None None 1000];
           User_id_seq := 2 |}).
Proof.
  split; [intros v [<-|[]]; reflexivity|].
  apply (verify_email_without_token pending_store
           (User.mk 1 "Ann" "ann@x.com" "01$pw1" false (Some "v1")
              None None 1000) []).
  - simpl. constructor; [simpl; tauto | constructor].
  - reflexivity.
Defined.

(** ** Password reset *)

Section ResetPassword.

Context {bcrypt : Bcrypt}.

Lemma not_redeemable_false token now u :
  ~ redeemable token now u -> prisma.where_reset token now u = false.
Proof.
  intros H. destruct (prisma.where_reset token now u) eqn:E; [|reflexivity].
  apply where_reset_true in E. contradiction.
Qed.

Lemma reset_password_refused s token newPass env :
  (forall u, In u (users s) -> ~ redeemable token (Date_now env) u) ->
  reset_password (Js.str token) newPass env s
  = ({| status := 400; body := json_error "Invalid or expired token" |}, s).
Proof.
  intros Hnone. rewrite reset_password_run.
  replace (List.find _ (users s)) with (@None User.t); [reflexivity|].
  symmetry. apply find_none_iff. intros v Hv.
  apply not_redeemable_false; auto.
Qed.

Lemma reset_password_accepted s token newPass env :
  NoDup (List.map User.id (users s)) ->
  (exists u, In u (users s) /\ redeemable token (Date_now env) u) ->
  exists l1 u l2,
    users s = (l1 ++ u :: l2)%list /\
    redeemable token (Date_now env) u /\
    reset_password (Js.str token) newPass env s
    = ({| status := 200; body := json_message "Password reset successful" |},
       {| users :=
            (l1 ++ User.mk (User.id u) (User.name u) (User.email u)
                     (bcrypt_hash newPass 10 (salt env))
                     (User.isVerified u) (User.verifyToken u)
                     None None (User.createdAt u) :: l2)%list;
          User_id_seq := User_id_seq s |}).
Proof.
  intros Hpk (w & Hw & Hred). rewrite reset_password_run.
  destruct (List.find _ (users s)) as [u|] eqn:Hf.
  - destruct (find_split _ _ _ Hf) as (l1 & l2 & Hs & Hu & _).
    exists l1, u, l2. split; [exact Hs|]. split.
    + apply where_reset_true; exact Hu.
    + unfold updated. rewrite Hs. rewrite Hs in Hpk.
      rewrite (update_rows_unique _ _ _ _ Hpk). reflexivity.
  - exfalso. rewrite find_none_iff in Hf. specialize (Hf w Hw).
    apply where_reset_true in Hred. congruence.
Qed.

(** C1 (amended): for every reset-password request whose token is a string
    t (and whose new password is a string), arriving at time now, the
    operation succeeds (it stores the hash of
    the new password and clears resetToken and resetTokenExpiry of the
    matching user) if and only if some user has resetToken = t and a
    resetTokenExpiry at or after now; otherwise it fails with 400
    "Invalid or expired token" and the store is unchanged. A request at the
    exact instant resetTokenExpiry = now succeeds. *)
Theorem reset_password_until_expiry
    (s : Store) (token newPass : string) (env : Env) :
  NoDup (List.map User.id (users s)) ->
  let r := reset_password (Js.str token) newPass env s in
  (status (fst r) = 200 <->
   exists u, In u (users s) /\ redeemable token (Date_now env) u)
  /\
  ((exists u, In u (users s) /\ redeemable token (Date_now env) u) ->
   exists l1 u l2,
     users s = (l1 ++ u :: l2)%list /\
     redeemable token (Date_now env) u /\
     r = ({| status := 200; body := json_message "Password reset successful" |},
          {| users :=
               (l1 ++ User.mk (User.id u) (User.name u) (User.email u)
                        (bcrypt_hash newPass 10 (salt env))
                        (User.isVerified u) (User.verifyToken u)
                        None None (User.createdAt u) :: l2)%list;
             User_id_seq := User_id_seq s |}))
  /\
  ((forall u, In u (users s) -> ~ redeemable token (Date_now env) u) ->
   r = ({| status := 400; body := json_error "Invalid or expired token" |}, s))
  /\
  (forall u, In u (users s) ->
     User.resetToken u = Some token ->
     User.resetTokenExpiry u = Some (Date_now env) ->
     status (fst r) = 200).
Proof.
  intros Hpk r.
  assert (Hyes : (exists u, In u (users s) /\ redeemable token (Date_now env) u)
                 -> status (fst r) = 200).
  { intros Hex.
    destruct (reset_password_accepted s token newPass env Hpk Hex)
      as (l1 & u & l2 & _ & _ & Hr).
    unfold r. rewrite Hr. reflexivity. }
  split; [split; [|exact Hyes]|split; [|split]].
  - intros Hok. unfold r in Hok. rewrite reset_password_run in Hok.
    destruct (List.find _ (users s)) as [u|] eqn:Hf.
    + apply List.find_some in Hf as [Hin Hu]. exists u. split; [exact Hin|].
      apply where_reset_true; exact Hu.
    + simpl in Hok. discriminate.
  - apply reset_password_accepted; exact Hpk.
  - apply reset_password_refused.
  - intros u Hin Htok Hexp. apply Hyes. exists u. split; [exact Hin|].
    split; [exact Htok|]. exists (Date_now env). split; [exact Hexp|lia].
Qed.

End ResetPassword.

(** At the expiry instant the reset still goes through, although no row
    has an expiry strictly later than the clock. *)
Lemma reset_password_at_expiry_instant :
  status (fst (reset_password (bcrypt := Reference.bcrypt) (Js.str "r1") "new"
                 (Reference.env_at 1000 x05) expiring_store)) = 200
  /\ users (snd (reset_password (bcrypt := Reference.bcrypt) (Js.str "r1") "new"
                   (Reference.env_at 1000 x05) expiring_store))
     = [User.mk 1 "Ann" "ann@x.com" "05$new" true None None None 10]
  /\ ~ (exists u, In u (users expiring_store) /\
                  strictly_unexpired "r1" (Date_now (Reference.env_at 1000 x05)) u).
Proof.
  split; [reflexivity|]. split; [reflexivity|].
  intros (u & [<-|[]] & _ & e & He & Hlt).
  simpl in He, Hlt. injection He as <-. lia.
Qed.

Lemma reset_password_until_expiry_witness :
  NoDup (List.map User.id (users expiring_store)) /\
  status (fst (reset_password (bcrypt := Reference.bcrypt) (Js.str "r1") "new"
                 (Reference.env_at 1000 x05) expiring_store)) = 200.
Proof.
  assert (Hpk : NoDup (List.map User.id (users expiring_store))).
  { simpl. constructor; [simpl; tauto | constructor]. }
  split; [exact Hpk|].
  destruct (reset_password_until_expiry (bcrypt := Reference.bcrypt)
              expiring_store "r1" "new" (Reference.env_at 1000 x05) Hpk)
    as (_ & _ & _ & Hat).
  apply (Hat (User.mk 1 "Ann" "ann@x.com" "01$pw1" true None
                (Some "r1") (Some 1000) 10)).
  - simpl. left. reflexivity.
  - reflexivity.
  - reflexivity.
Defined.



(** ** Login *)

Section Login.

Context {bcrypt : Bcrypt} {jws : Jws}.
Variable JWT_SECRET : option string.

Lemma login_run email password env s :
  fst (login JWT_SECRET email password env s) =
  match List.find (prisma.where_email email) (users s) with
  | None => {| status := 400; body := json_error "User not found" |}
  | Some u =>
      if User.isVerified u then
        if bcrypt_compare password (User.password u) then
          match jwt.sign (User.id u) JWT_SECRET (Date_now env) with
          | inl e => {| status := 500; body := json_error (message e) |}
          | inr token => {| status := 200; body := json_token token |}
          end
        else {| status := 400; body := json_error "Invalid credentials" |}
      else {| status := 403;
              body := json_error "Please verify your email before logging in." |}
  end.
Proof.
  unfold login, try_catch, login_body, bind, prisma.findUnique.
  destruct (List.find _ (users s)) as [u|]; [|reflexivity].
  destruct (User.isVerified u); [|reflexivity].
  destruct (bcrypt_compare password (User.password u)); [|reflexivity].
  simpl. destruct (jwt.sign _ _ _); reflexivity.
Qed.

Lemma sign_with_key id key now :
  key <> EmptyString ->
  jwt.sign id (Some key) now
  = inr (jws_sign {| claim_id := id; iat := now / 1000;
                     exp := Some (now / 1000 + 3600) |} key).
Proof. intros Hkey. destruct key; [congruence|reflexivity]. Qed.

End Login.

(** An unverified account is turned away before any hash is looked at:
    the whole outcome is the same under every implementation of bcrypt. *)
Lemma login_unverified_ignores_bcrypt
    (b1 b2 : Bcrypt) (jws : Jws) secret email password env s u :
  List.find (prisma.where_email email) (users s) = Some u ->
  User.isVerified u = false ->
  login (bcrypt := b1) secret email password env s
  = login (bcrypt := b2) secret email password env s.
Proof.
  intros Hf Hu.
  unfold login, try_catch, login_body, bind, prisma.findUnique.
  rewrite Hf, Hu. reflexivity.
Qed.

(** C3: for every login request (email, password): when no user has that
    email the result is 400 "User not found"; when the user exists with
    isVerified = false the result is 403 whether or not the password matches
    the stored hash (the hash is not consulted: any other bcrypt gives the
    same outcome); when the user is verified and the password does not
    match the result is 400 "Invalid credentials"; when the user is verified
    and the password matches the result is 200 with a session token signed
    for the user's id (the signing secret being configured); and no user
    record is modified in any of these cases. Emails are unique, as the
    index on the column enforces. *)
Theorem login_outcomes {bcrypt : Bcrypt} {jws : Jws}
    (JWT_SECRET : option string) (s : Store) (email password : string)
    (env : Env) :
  NoDup (List.map User.email (users s)) ->
  let r := login JWT_SECRET email password env s in
  snd r = s
  /\
  ((forall u, In u (users s) -> User.email u <> email) ->
   fst r = {| status := 400; body := json_error "User not found" |})
  /\
  (forall u, In u (users s) -> User.email u = email ->
     (User.isVerified u = false ->
      fst r = {| status := 403;
                 body := json_error "Please verify your email before logging in." |}
      /\ forall other : Bcrypt,
           login (bcrypt := other) JWT_SECRET email password env s = r)
     /\
     (User.isVerified u = true ->
      bcrypt_compare password (User.password u) = false ->
      fst r = {| status := 400; body := json_error "Invalid credentials" |})
     /\
     (User.isVerified u = true ->
      bcrypt_compare password (User.password u) = true ->
      forall key, JWT_SECRET = Some key -> key <> EmptyString ->
      fst r = {| status := 200;
                 body := json_token
                   (jws_sign {| claim_id := User.id u;
                                iat := Date_now env / 1000;
                                exp := Some (Date_now env / 1000 + 3600) |}
                             key) |})).
Proof.
  intros Huniq r. split; [apply login_keeps_store|]. split.
  - intros Hnone. unfold r. rewrite login_run.
    replace (List.find _ (users s)) with (@None User.t); [reflexivity|].
    symmetry. apply find_none_iff. intros v Hv.
    destruct (prisma.where_email email v) eqn:E; [|reflexivity].
    apply where_email_true in E. exfalso. exact (Hnone v Hv E).
  - intros u Hin Hemail.
    assert (Hf : List.find (prisma.where_email email) (users s) = Some u).
    { rewrite <- Hemail. apply find_by_email; assumption. }
    split; [|split].
    + intros Hunv. split.
      * unfold r. rewrite login_run, Hf, Hunv. reflexivity.
      * intros other. unfold r.
        apply (login_unverified_ignores_bcrypt other bcrypt jws _ _ _ _ _ u);
          assumption.
    + intros Hv Hcmp. unfold r. rewrite login_run, Hf, Hv, Hcmp. reflexivity.
    + intros Hv Hcmp key -> Hkey. unfold r.
      rewrite login_run, Hf, Hv, Hcmp, sign_with_key by exact Hkey.
      reflexivity.
Qed.

Lemma login_outcomes_witness :
  NoDup (List.map User.email (users expiring_store)) /\
  login (bcrypt := Reference.bcrypt) (jws := Reference.jws) Reference.secret
    "ann@x.com" "pw1" (Reference.env_at 1500 x02) expiring_store
  = ({| status := 200; body := json_token "s3cr3t.1.1.3601" |}, expiring_store).
Proof.
  assert (Huniq : NoDup (List.map User.email (users expiring_store))).
  { simpl. constructor; [simpl; tauto | constructor]. }
  split; [exact Huniq|].
  destruct (login_outcomes (bcrypt := Reference.bcrypt) (jws := Reference.jws)
              Reference.secret expiring_store "ann@x.com" "pw1"
              (Reference.env_at 1500 x02) Huniq)
    as (Hkeep & _ & Hfound).
  destruct (Hfound (User.mk 1 "Ann" "ann@x.com" "01$pw1" true None
                      (Some "r1") (Some 1000) 10)
              (or_introl eq_refl) eq_refl)
    as (_ & _ & Hok).
  specialize (Hok eq_refl eq_refl "s3cr3t" eq_refl).
  apply injective_projections.
  - rewrite Hok; [reflexivity | discriminate].
  - exact Hkeep.
Defined.

(** ** The guard *)

Section Guard.

Context {jws : Jws}.
Variable JWT_SECRET : option string.

Lemma split_space_word w : Js.has_space w = false -> Js.split_space w = [w].
Proof.
  induction w as [|c w IH]; simpl; [reflexivity|].
  destruct (Ascii.eqb c " "); simpl; [discriminate|].
  intros Hw. rewrite (IH Hw). reflexivity.
Qed.

(** [scheme ++ " " ++ tok] splits into its two words. *)
Lemma split_space_two scheme tok :
  Js.has_space scheme = false -> Js.has_space tok = false ->
  Js.split_space (scheme ++ String " " tok) = [scheme; tok].
Proof.
  intros Hs Ht. induction scheme as [|c scheme IH]; simpl.
  - rewrite (split_space_word tok Ht). reflexivity.
  - simpl in Hs. destruct (Ascii.eqb c " "); simpl in Hs; [discriminate|].
    rewrite (IH Hs). reflexivity.
Qed.

Lemma bearer_token_standard tok :
  tok <> EmptyString -> Js.has_space tok = false ->
  Js.truthy (bearer_token (Some ("Bearer " ++ tok))) = Some tok.
Proof.
  intros Hne Hsp. unfold bearer_token.
  change ("Bearer " ++ tok) with ("Bearer" ++ String " " tok).
  replace (Js.truthy (Some ("Bearer" ++ String " " tok)))
    with (Some ("Bearer" ++ String " " tok)) by reflexivity.
  rewrite (split_space_two "Bearer" tok eq_refl Hsp). simpl.
  destruct tok; [congruence|reflexivity].
Qed.

Lemma bearer_token_one_word v :
  Js.has_space v = false -> Js.truthy (bearer_token (Some v)) = None.
Proof.
  intros Hv. unfold bearer_token. destruct v as [|c v]; [reflexivity|].
  simpl Js.truthy at 2. cbv iota.
  rewrite (split_space_word _ Hv). reflexivity.
Qed.

Lemma guard_rejects_401 h now next s :
  Js.truthy (bearer_token h) = None ->
  authenticateToken JWT_SECRET h now next s
  = ({| status := 401; body := json_error "Token não fornecido" |}, s).
Proof. intros E. unfold authenticateToken. rewrite E. reflexivity. Qed.

Lemma guard_rejects_403 h tok now next s :
  Js.truthy (bearer_token h) = Some tok ->
  (forall c, jwt.verify tok JWT_SECRET now <> inr c) ->
  authenticateToken JWT_SECRET h now next s
  = ({| status := 403; body := json_error "Token inválido ou expirado" |}, s).
Proof.
  intros E Hbad. unfold authenticateToken. rewrite E.
  destruct (jwt.verify tok JWT_SECRET now) as [e|c]; [reflexivity|].
  exfalso. exact (Hbad c eq_refl).
Qed.

Lemma guard_passes h tok now next s c :
  Js.truthy (bearer_token h) = Some tok ->
  jwt.verify tok JWT_SECRET now = inr c ->
  authenticateToken JWT_SECRET h now next s = next c s.
Proof. intros E Hv. unfold authenticateToken. rewrite E, Hv. reflexivity. Qed.

(** What [jwt.verify] answers, from the signature check and the clock. *)
Lemma verify_unsigned tok now :
  (forall key, JWT_SECRET = Some key -> jws_verify tok key = None) ->
  forall c, jwt.verify tok JWT_SECRET now <> inr c.
Proof.
  intros Hbad c. unfold jwt.verify.
  destruct JWT_SECRET as [[|a key]|]; simpl; try discriminate.
  rewrite (Hbad _ eq_refl). discriminate.
Qed.

Lemma verify_expired tok now :
  (forall key payload, JWT_SECRET = Some key ->
     jws_verify tok key = Some payload ->
     exists e, exp payload = Some e /\ e <= now / 1000) ->
  forall c, jwt.verify tok JWT_SECRET now <> inr c.
Proof.
  intros Hexp c. unfold jwt.verify.
  destruct JWT_SECRET as [[|a key]|]; simpl; try discriminate.
  destruct (jws_verify tok (String a key)) as [payload|] eqn:Hp;
    [|discriminate].
  destruct (Hexp _ payload eq_refl Hp) as (e & -> & Hle).
  unfold jwt.clockTimestamp.
  replace (now / 1000 >=? e) with true; [discriminate|].
  symmetry. apply Z.geb_le. exact Hle.
Qed.

Lemma verify_valid tok key now payload :
  JWT_SECRET = Some key -> key <> EmptyString ->
  jws_verify tok key = Some payload ->
  (forall e, exp payload = Some e -> now / 1000 < e) ->
  jwt.verify tok JWT_SECRET now = inr payload.
Proof.
  intros -> Hkey Hp Hfresh. unfold jwt.verify.
  destruct key as [|a key]; [congruence|]. simpl. rewrite Hp.
  destruct (exp payload) as [e|]; [|reflexivity].
  unfold jwt.clockTimestamp.
  replace (now / 1000 >=? e) with false; [reflexivity|].
  symmetry. rewrite Z.geb_leb. apply Z.leb_gt. apply Hfresh. reflexivity.
Qed.

End Guard.

(** C4: for every request to a protected route, with [token] what the
    guard extracts from the authorization header: when the request carries
    no bearer token (no header, a header of a single word, the word Bearer
    followed by nothing: [token] is undefined or empty) the guard answers 401
    and the downstream handler is not invoked, whatever it is; when a token
    is present (as in "Bearer <token>") but fails verification (bad
    signature or malformed: the signature check gives no payload; expired:
    the payload's expiry is not after the clock; or no secret to check
    against) it answers 403 and the handler is not invoked; when
    verification succeeds the handler runs and receives the verified
    payload, which carries the user id. *)
Theorem authenticateToken_gate {jws : Jws} (JWT_SECRET : option string)
    (now : Z) (s : Store) :
  (forall h,
     h = None \/
     (exists v, h = Some v /\ Js.has_space v = false) \/
     h = Some "Bearer " ->
     Js.truthy (bearer_token h) = None)
  /\
  (forall tok,
     tok <> EmptyString -> Js.has_space tok = false ->
     Js.truthy (bearer_token (Some ("Bearer " ++ tok))) = Some tok)
  /\
  (forall h next,
     Js.truthy (bearer_token h) = None ->
     authenticateToken JWT_SECRET h now next s
     = ({| status := 401; body := json_error "Token não fornecido" |}, s))
  /\
  (forall h tok next,
     Js.truthy (bearer_token h) = Some tok ->
     (Js.truthy JWT_SECRET = None \/
      (forall key, JWT_SECRET = Some key -> jws_verify tok key = None) \/
      (forall key payload,
         JWT_SECRET = Some key -> jws_verify tok key = Some payload ->
         exists e, exp payload = Some e /\ e <= now / 1000) ->
      authenticateToken JWT_SECRET h now next s
      = ({| status := 403; body := json_error "Token inválido ou expirado" |}, s))
     /\
     (forall key payload,
        JWT_SECRET = Some key -> key <> EmptyString ->
        jws_verify tok key = Some payload ->
        (forall e, exp payload = Some e -> now / 1000 < e) ->
        authenticateToken JWT_SECRET h now next s = next payload s)).
Proof.
  split; [|split; [|split]].
  - intros h [->|[(v & -> & Hv)| ->]].
    + reflexivity.
    + apply bearer_token_one_word; exact Hv.
    + reflexivity.
  - apply bearer_token_standard.
  - intros h next Hnone. apply guard_rejects_401; exact Hnone.
  - intros h tok next Htok. split.
    + intros Hfail. apply (guard_rejects_403 _ _ tok); [exact Htok|].
      destruct Hfail as [Hsecret|[Hbad|Hold]].
      * intros c. unfold jwt.verify. rewrite Hsecret. discriminate.
      * apply verify_unsigned; exact Hbad.
      * apply verify_expired; exact Hold.
    + intros key payload Hkey Hk Hp Hfresh.
      apply (guard_passes _ _ tok); [exact Htok|].
      apply (verify_valid _ tok key); assumption.
Qed.

Lemma authenticateToken_gate_witness :
  authenticateToken (jws := Reference.jws) Reference.secret None 0 wipe
    expiring_store
  = ({| status := 401; body := json_error "Token não fornecido" |},
     expiring_store)
  /\ authenticateToken (jws := Reference.jws) Reference.secret
       (Some "Bearer s3cr3t.1.1.3601") 3601000 wipe expiring_store
     = ({| status := 403; body := json_error "Token inválido ou expirado" |},
        expiring_store)
  /\ authenticateToken (jws := Reference.jws) Reference.secret
       (Some "Bearer s3cr3t.1.1.3601") 3600999 wipe expiring_store
     = wipe {| claim_id := 1; iat := 1; exp := Some 3601 |} expiring_store.
Proof.
  destruct (authenticateToken_gate (jws := Reference.jws) Reference.secret
              0 expiring_store) as (Habsent & _ & H401 & _).
  destruct (authenticateToken_gate (jws := Reference.jws) Reference.secret
              3601000 expiring_store) as (_ & Hstd & _ & Hlate).
  destruct (authenticateToken_gate (jws := Reference.jws) Reference.secret
              3600999 expiring_store) as (_ & _ & _ & Hearly).
  assert (Htok : Js.truthy (bearer_token (Some "Bearer s3cr3t.1.1.3601"))
                 = Some "s3cr3t.1.1.3601").
  { apply (Hstd "s3cr3t.1.1.3601"); [discriminate | reflexivity]. }
  split; [|split].
  - apply H401. apply Habsent. left. reflexivity.
  - apply (Hlate _ "s3cr3t.1.1.3601" wipe Htok).
    right. right. intros key payload [= <-] [= <-].
    exists 3601. split; [reflexivity | vm_compute; discriminate].
  - apply (Hearly _ "s3cr3t.1.1.3601" wipe Htok) with (key := "s3cr3t");
      [reflexivity | discriminate | reflexivity |].
    intros e [= <-]. vm_compute. reflexivity.
Defined.

(** ** Password change *)

Section PasswordChange.

Context {bcrypt : Bcrypt} {jws : Jws}.
Variable JWT_SECRET : option string.

(** Behind the guard, the handler runs with the id of the payload. *)
Lemma put_account_password_authenticated h current newPass env c s :
  authenticated JWT_SECRET h (Date_now env) c ->
  put_account_password JWT_SECRET h current newPass env s
  = account_password (claim_id c) current newPass env s.
Proof.
  intros (tok & key & -> & Hne & Hsp & Hkey & Hk & Hp & Hfresh).
  unfold put_account_password.
  apply (guard_passes JWT_SECRET _ tok _
           (fun user => account_password (claim_id user) current newPass env)).
  - apply bearer_token_standard; assumption.
  - apply (verify_valid _ tok key); assumption.
Qed.

End PasswordChange.

(** C9: for every authenticated password-change request (current, newPass)
    by user u: when current does not match u's stored hash the answer is
    401 and the table, u's record included, is unchanged; when it matches,
    u's password becomes the hash of newPass while u's id, name, email,
    isVerified, verifyToken, resetToken, resetTokenExpiry and every other
    user's record stay as they were. *)
Theorem password_change_frame {bcrypt : Bcrypt} {jws : Jws}
    (JWT_SECRET : option string) (s : Store) (h : option string)
    (current newPass : string) (env : Env)
    (l1 : list User.t) (u : User.t) (l2 : list User.t) (c : Claims) :
  NoDup (List.map User.id (users s)) ->
  users s = (l1 ++ u :: l2)%list ->
  authenticated JWT_SECRET h (Date_now env) c ->
  claim_id c = User.id u ->
  let r := put_account_password JWT_SECRET h current newPass env s in
  (bcrypt_compare current (User.password u) = false ->
   r = ({| status := 401; body := json_error "Senha atual incorreta" |}, s))
  /\
  (bcrypt_compare current (User.password u) = true ->
   r = ({| status := 200; body := json_message "Senha alterada com sucesso" |},
        {| users :=
             (l1 ++ User.mk (User.id u) (User.name u) (User.email u)
                      (bcrypt_hash newPass 10 (salt env))
                      (User.isVerified u) (User.verifyToken u)
                      (User.resetToken u) (User.resetTokenExpiry u)
                      (User.createdAt u) :: l2)%list;
           User_id_seq := User_id_seq s |})).
Proof.
  intros Hpk Hs Hauth Hid r. unfold r.
  rewrite (put_account_password_authenticated _ _ _ _ _ c) by exact Hauth.
  rewrite account_password_run, Hid.
  assert (Hin : In u (users s)).
  { rewrite Hs. apply List.in_or_app. right. left. reflexivity. }
  rewrite (find_by_id _ _ Hpk Hin).
  split; intros Hcmp; rewrite Hcmp; [reflexivity|].
  unfold updated. rewrite Hs. rewrite Hs in Hpk.
  rewrite (update_rows_unique _ _ _ _ Hpk). reflexivity.
Qed.

(** C10: when the guard accepts a session token whose user id matches no
    record of the table (the account was removed after the token was
    issued), the password change answers 500, neither 401 nor 200, and the
    table is unchanged: reading the password of the missing record throws
    and the handler's catch-all turns that into the 500. *)
Theorem password_change_deleted_account {bcrypt : Bcrypt} {jws : Jws}
    (JWT_SECRET : option string) (s : Store) (h : option string)
    (current newPass : string) (env : Env) (c : Claims) :
  authenticated JWT_SECRET h (Date_now env) c ->
  (forall u, In u (users s) -> User.id u <> claim_id c) ->
  put_account_password JWT_SECRET h current newPass env s
  = ({| status := 500;
        body := json_error
                  "Cannot read properties of null (reading 'password')" |}, s).
Proof.
  intros Hauth Hgone.
  rewrite (put_account_password_authenticated _ _ _ _ _ c) by exact Hauth.
  rewrite account_password_run.
  replace (List.find _ (users s)) with (@None User.t); [reflexivity|].
  symmetry. apply find_none_iff. intros v Hv.
  destruct (prisma.where_id (claim_id c) v) eqn:E; [|reflexivity].
  apply where_id_true in E. exfalso. exact (Hgone v Hv E).
Qed.

Lemma reference_session_authenticated :
  authenticated (jws := Reference.jws) Reference.secret
    (Some "Bearer s3cr3t.1.1.3601") 2000
    {| claim_id := 1; iat := 1; exp := Some 3601 |}.
Proof.
  exists "s3cr3t.1.1.3601", "s3cr3t".
  repeat split; try discriminate.
  intros e [= <-]. vm_compute. reflexivity.
Qed.

Lemma password_change_frame_witness :
  put_account_password (bcrypt := Reference.bcrypt) (jws := Reference.jws)
    Reference.secret (Some "Bearer s3cr3t.1.1.3601") "wrong" "pw2"
    (Reference.env_at 2000 x03) expiring_store
  = ({| status := 401; body := json_error "Senha atual incorreta" |},
     expiring_store)
  /\
  put_account_password (bcrypt := Reference.bcrypt) (jws := Reference.jws)
    Reference.secret (Some "Bearer s3cr3t.1.1.3601") "pw1" "pw2"
    (Reference.env_at 2000 x03) expiring_store
  = ({| status := 200; body := json_message "Senha alterada com sucesso" |},
     {| users := [User.mk 1 "Ann" "ann@x.com" "03$pw2" true None
                    (Some "r1") (Some 1000) 10];
        User_id_seq := 2 |}).
Proof.
  assert (Hpk : NoDup (List.map User.id (users expiring_store))).
  { simpl. constructor; [simpl; tauto | constructor]. }
  split.
  - apply (password_change_frame (bcrypt := Reference.bcrypt)
             (jws := Reference.jws) Reference.secret expiring_store
             (Some "Bearer s3cr3t.1.1.3601") "wrong" "pw2"
             (Reference.env_at 2000 x03) []
             (User.mk 1 "Ann" "ann@x.com" "01$pw1" true None
                (Some "r1") (Some 1000) 10) []
             {| claim_id := 1; iat := 1; exp := Some 3601 |} Hpk eq_refl
             reference_session_authenticated eq_refl).
    reflexivity.
  - apply (password_change_frame (bcrypt := Reference.bcrypt)
             (jws := Reference.jws) Reference.secret expiring_store
             (Some "Bearer s3cr3t.1.1.3601") "pw1" "pw2"
             (Reference.env_at 2000 x03) []
             (User.mk 1 "Ann" "ann@x.com" "01$pw1" true None
                (Some "r1") (Some 1000) 10) []
             {| claim_id := 1; iat := 1; exp := Some 3601 |} Hpk eq_refl
             reference_session_authenticated eq_refl).
    reflexivity.
Defined.

Lemma password_change_deleted_account_witness :
  authenticated (jws := Reference.jws) Reference.secret
    (Some "Bearer s3cr3t.1.1.3601") 2000
    {| claim_id := 1; iat := 1; exp := Some 3601 |}
  /\ (forall u, In u (users empty_store) -> User.id u <> 1)
  /\ put_account_password (bcrypt := Reference.bcrypt) (jws := Reference.jws)
       Reference.secret (Some "Bearer s3cr3t.1.1.3601") "pw1" "pw2"
       (Reference.env_at 2000 x03) empty_store
     = ({| status := 500;
           body := json_error
                     "Cannot read properties of null (reading 'password')" |},
        empty_store).
Proof.
  split; [exact reference_session_authenticated|].
  split; [intros u []|].
  apply (password_change_deleted_account (bcrypt := Reference.bcrypt)
           (jws := Reference.jws) Reference.secret empty_store
           (Some "Bearer s3cr3t.1.1.3601") "pw1" "pw2"
           (Reference.env_at 2000 x03)
           {| claim_id := 1; iat := 1; exp := Some 3601 |}
           reference_session_authenticated).
  intros u [].
Defined.

(** ** Signup *)

Section Signup.

Context {bcrypt : Bcrypt}.

Lemma toString_hex_length bs :
  String.length (Crypto.toString_hex bs) = (2 * List.length bs)%nat.
Proof.
  induction bs as [|b bs IH]; simpl; [reflexivity|].
  rewrite IH. lia.
Qed.

Lemma randomBytes_length entropy n :
  List.length (Crypto.randomBytes entropy n) = n.
Proof. unfold Crypto.randomBytes. rewrite List.length_map. apply List.length_seq. Qed.

(** Thirty-two random bytes print as sixty-four hexadecimal digits. *)
Lemma opaque_token_length env : String.length (opaque_token env) = 64%nat.
Proof.
  unfold opaque_token. rewrite toString_hex_length, randomBytes_length.
  reflexivity.
Qed.

Lemma opaque_token_nonempty env : opaque_token env <> EmptyString.
Proof.
  intros E. pose proof (opaque_token_length env) as L.
  rewrite E in L. discriminate.
Qed.

Lemma after_mail_no_token env ok token :
  body (after_mail env ok) <> json_token token.
Proof. unfold after_mail. destruct (sendMail_error env); discriminate. Qed.

Lemma email_fresh_find email l :
  (forall u, In u l -> User.email u <> email) ->
  List.find (prisma.where_email email) l = None.
Proof.
  intros Hfresh. apply find_none_iff. intros v Hv.
  destruct (prisma.where_email email v) eqn:E; [|reflexivity].
  apply where_email_true in E. exfalso. exact (Hfresh v Hv E).
Qed.

End Signup.

(** C5: for every signup input (name, email, password): when some user
    already has that exact email (string equality, so case-sensitive) the
    signup fails with 400 "Email already registered" and the store is
    unchanged; when the email is fresh a new user is appended with
    isVerified = false, a verifyToken of sixty-four hexadecimal digits
    (hence non-empty) and, as password, the bcrypt hash of the input (the
    table depends on the password through that hash only); the response is
    the 200 message, or the 500 of a failed mail dispatch, and in no case
    carries a session token. *)
Theorem signup_creates_unverified {bcrypt : Bcrypt}
    (s : Store) (name email password : string) (env : Env) :
  let r := signup name email password env s in
  ((exists u, In u (users s) /\ User.email u = email) ->
   r = ({| status := 400; body := json_error "Email already registered" |}, s))
  /\
  ((forall u, In u (users s) -> User.email u <> email) ->
   (exists tok,
      String.length tok = 64%nat /\ tok <> EmptyString /\
      snd r = {| users :=
                   (users s ++
                    [User.mk (User_id_seq s) name email
                       (bcrypt_hash password 10 (salt env))
                       false (Some tok) None None (Date_now env)])%list;
                 User_id_seq := User_id_seq s + 1 |})
   /\
   (sendMail_error env = None ->
    fst r = {| status := 200;
               body := json_message
                 "Account created successfully! Please check your email to verify your account." |})
   /\
   (forall reason, sendMail_error env = Some reason ->
      fst r = {| status := 500; body := json_error reason |})
   /\
   (forall token, body (fst r) <> json_token token)
   /\
   (forall password',
      bcrypt_hash password' 10 (salt env) = bcrypt_hash password 10 (salt env) ->
      snd (signup name email password' env s) = snd r)).
Proof.
  intros r. unfold r. split.
  - intros (u & Hin & Hemail). rewrite signup_run.
    destruct (List.find _ (users s)) as [v|] eqn:Hf; [reflexivity|].
    exfalso. rewrite find_none_iff in Hf. specialize (Hf u Hin).
    apply where_email_true in Hemail. congruence.
  - intros Hfresh. rewrite !signup_run.
    rewrite (email_fresh_find email (users s) Hfresh). simpl.
    split; [|split; [|split; [|split]]].
    + exists (opaque_token env).
      split; [apply opaque_token_length|].
      split; [apply opaque_token_nonempty|reflexivity].
    + intros Hmail. unfold after_mail. rewrite Hmail. reflexivity.
    + intros reason Hmail. unfold after_mail. rewrite Hmail. reflexivity.
    + intros token. apply after_mail_no_token.
    + intros password' Hsame. rewrite signup_run.
      rewrite (email_fresh_find email (users s) Hfresh). simpl.
      rewrite Hsame. reflexivity.
Qed.

(** A second signup with the same email hits the conflict; the same email
    in another case is a different email. *)
Lemma signup_creates_unverified_witness :
  signup (bcrypt := Reference.bcrypt) "Ann" "ann@x.com" "pw9"
    (Reference.env_at 2000 x07) expiring_store
  = ({| status := 400; body := json_error "Email already registered" |},
     expiring_store)
  /\
  fst (signup (bcrypt := Reference.bcrypt) "Ann" "Ann@x.com" "pw9"
         (Reference.env_at 2000 x07) expiring_store)
  = {| status := 200;
       body := json_message
         "Account created successfully! Please check your email to verify your account." |}.
Proof.
  destruct (signup_creates_unverified (bcrypt := Reference.bcrypt)
              expiring_store "Ann" "ann@x.com" "pw9"
              (Reference.env_at 2000 x07)) as [Htaken _].
  destruct (signup_creates_unverified (bcrypt := Reference.bcrypt)
              expiring_store "Ann" "Ann@x.com" "pw9"
              (Reference.env_at 2000 x07)) as [_ Hfresh].
  split.
  - apply Htaken.
    exists (User.mk 1 "Ann" "ann@x.com" "01$pw1" true None
              (Some "r1") (Some 1000) 10).
    split; [left; reflexivity | reflexivity].
  - apply Hfresh; [|reflexivity].
    intros u [<-|[]]. simpl. discriminate.
Defined.

(** ** Reachable tables *)

Section Reachable.

Context {bcrypt : Bcrypt} {jws : Jws}.
Variable JWT_SECRET : option string.

Lemma account_password_effect id current newPass env s :
  effect s (snd (account_password id current newPass env s)).
Proof.
  rewrite account_password_run.
  destruct (List.find _ (users s)) as [u|]; [|constructor].
  destruct (bcrypt_compare current (User.password u)); simpl; constructor.
  constructor.
Qed.

Lemma serve_effect c env s : effect s (snd (serve JWT_SECRET c env s)).
Proof.
  destruct c as [name email password|token|email password
                |h current newPass|email|token newPass]; simpl.
  - rewrite signup_run.
    destruct (List.find _ (users s)) as [u|] eqn:Hf; simpl; [constructor|].
    apply effect_insert. intros u Hu Hemail.
    rewrite find_none_iff in Hf. specialize (Hf u Hu).
    apply where_email_true in Hemail. congruence.
  - rewrite verify_email_field.
    destruct (prisma.where_verifyToken_field token) as [p|]; [|constructor].
    destruct (List.find p (users s)); simpl; constructor. constructor.
  - rewrite login_keeps_store. constructor.
  - unfold put_account_password, authenticateToken.
    destruct (Js.truthy (bearer_token h)) as [tok|]; [|constructor].
    destruct (jwt.verify tok JWT_SECRET (Date_now env)) as [e|user];
      [constructor|].
    apply account_password_effect.
  - rewrite forgot_password_run.
    destruct (List.find _ (users s)); simpl; constructor. constructor.
  - rewrite reset_password_field.
    destruct (prisma.where_reset_field token (Date_now env)) as [p|];
      [|constructor].
    destruct (List.find p (users s)); simpl; constructor. constructor.
Qed.

Lemma Write_keeps_id data u : Write data -> User.id (data u) = User.id u.
Proof. intros []; reflexivity. Qed.

Lemma Write_keeps_email data u :
  Write data -> User.email (data u) = User.email u.
Proof. intros []; reflexivity. Qed.

(** No write un-verifies an account or takes a pending token away without
    verifying it. *)
Lemma Write_settled data u :
  Write data -> verification_settled u -> verification_settled (data u).
Proof.
  intros [|h|tok expiry|h]; try (intros Hu; exact Hu).
  intros _. right. simpl. split; [split; reflexivity|].
  intros Ha. apply Ha. reflexivity.
Qed.

Lemma effect_settled s s' :
  effect s s' ->
  (forall u, In u (users s) -> verification_settled u) ->
  forall u, In u (users s') -> verification_settled u.
Proof.
  intros [|id data Hw|name email password verifyToken now Hfresh] Hall u Hu.
  - auto.
  - simpl in Hu. apply in_update_rows in Hu as (u0 & Hu0 & [->| ->]); auto.
    apply Write_settled; auto.
  - simpl in Hu. apply List.in_app_or in Hu as [Hu|[<-|[]]]; auto.
    left. simpl. split; [discriminate|]. intros [Hv _]. discriminate.
Qed.

Lemma effect_well_formed s s' : effect s s' -> well_formed s -> well_formed s'.
Proof.
  intros [|id data Hw|name email password verifyToken now Hfresh]
         (Hpk & Huniq & Hseq).
  - repeat split; assumption.
  - repeat split; simpl.
    + rewrite update_rows_column; [exact Hpk|].
      intros u; apply Write_keeps_id; exact Hw.
    + rewrite update_rows_column; [exact Huniq|].
      intros u; apply Write_keeps_email; exact Hw.
    + intros v Hv. apply in_update_rows in Hv as (u0 & Hu0 & [->| ->]).
      * auto.
      * rewrite Write_keeps_id by exact Hw. auto.
  - repeat split; simpl.
    + rewrite List.map_app. simpl. apply List.NoDup_app; [exact Hpk | | ].
      * constructor; [simpl; tauto | constructor].
      * intros i Hi [<-|[]]. apply List.in_map_iff in Hi as (u0 & Hid & Hu0).
        specialize (Hseq u0 Hu0). lia.
    + rewrite List.map_app. simpl. apply List.NoDup_app; [exact Huniq | | ].
      * constructor; [simpl; tauto | constructor].
      * intros e He [<-|[]]. apply List.in_map_iff in He as (u0 & Hem & Hu0).
        exact (Hfresh u0 Hu0 Hem).
    + intros v Hv. apply List.in_app_or in Hv as [Hv|[<-|[]]].
      * specialize (Hseq v Hv). lia.
      * simpl. lia.
Qed.

(** Every table the routes produce from a fresh database satisfies the
    constraints of the migration. *)
Lemma reachable_well_formed s : reachable JWT_SECRET s -> well_formed s.
Proof.
  induction 1 as [|c env s Hs IH].
  - repeat split; simpl; try constructor. intros u [].
  - exact (effect_well_formed _ _ (serve_effect c env s) IH).
Qed.

End Reachable.

(** C7: in every state reachable from a fresh database by any sequence of
    signup, verify, login, password-change, forgot-password and
    reset-password requests, every user record satisfies exactly one of:
    (a) verifyToken is present (non-null), or (b) isVerified = true and
    verifyToken = null. *)
Theorem verification_invariant {bcrypt : Bcrypt} {jws : Jws}
    (JWT_SECRET : option string) (s : Store) :
  reachable JWT_SECRET s ->
  forall u, In u (users s) -> verification_settled u.
Proof.
  induction 1 as [|c env s Hs IH].
  - intros u [].
  - exact (effect_settled _ _ (serve_effect JWT_SECRET c env s) IH).
Qed.

Lemma verification_invariant_witness :
  reachable (bcrypt := Reference.bcrypt) (jws := Reference.jws)
    Reference.secret signed_up_and_verified
  /\ verification_settled
       (User.mk 1 "Ann" "ann@x.com" "01$pw1" true None None None 1000).
Proof.
  assert (Hr : reachable (bcrypt := Reference.bcrypt) (jws := Reference.jws)
                 Reference.secret signed_up_and_verified).
  { unfold signed_up_and_verified.
    apply reachable_serve. apply reachable_serve. apply reachable_fresh. }
  split; [exact Hr|].
  apply (verification_invariant (bcrypt := Reference.bcrypt)
           (jws := Reference.jws) Reference.secret _ Hr).
  vm_compute. left. reflexivity.
Defined.

(** ** Forgot password, twice *)

Section ForgotPassword.

Context {bcrypt : Bcrypt}.

Lemma find_map_stable (p : User.t -> bool) (g : User.t -> User.t) l :
  (forall x, p (g x) = p x) ->
  List.find p (List.map g l) = option_map g (List.find p l).
Proof.
  intros Hp. induction l as [|a l IH]; simpl; [reflexivity|].
  rewrite Hp. destruct (p a); [reflexivity|exact IH].
Qed.

Lemma update_rows_twice i d1 d2 l :
  (forall u, User.id (d1 u) = User.id u) ->
  prisma.update_rows i d2 (prisma.update_rows i d1 l)
  = prisma.update_rows i (fun u => d2 (d1 u)) l.
Proof.
  intros Hid. unfold prisma.update_rows. rewrite List.map_map.
  apply List.map_ext. intros a.
  destruct (prisma.where_id i a) eqn:Ha.
  - unfold prisma.where_id in *. rewrite Hid, Ha. reflexivity.
  - rewrite Ha. reflexivity.
Qed.

(** The account is still found by its email after its reset pair is written. *)
Lemma find_email_after_reset email i tok expiry l :
  List.find (prisma.where_email email)
    (prisma.update_rows i (User.set_reset tok expiry) l)
  = option_map (fun r => if prisma.where_id i r
                         then User.set_reset tok expiry r else r)
      (List.find (prisma.where_email email) l).
Proof.
  unfold prisma.update_rows. apply find_map_stable.
  intros x. destruct (prisma.where_id i x); reflexivity.
Qed.

(** The table after two forgot-password requests in a row for one account:
    the rows of the account hold the second pair. *)
Lemma forgot_password_twice email env1 env2 s u :
  List.find (prisma.where_email email) (users s) = Some u ->
  snd (forgot_password email env2 (snd (forgot_password email env1 s)))
  = updated s (User.id u)
      (User.set_reset (opaque_token env2) (Date_now env2 + 900000)).
Proof.
  intros Hf. rewrite (forgot_password_run email env1 s), Hf. simpl.
  rewrite forgot_password_run. simpl.
  rewrite find_email_after_reset, Hf. simpl.
  unfold prisma.where_id at 1. rewrite Z.eqb_refl. simpl.
  unfold updated. simpl. f_equal.
  rewrite update_rows_twice by reflexivity.
  reflexivity.
Qed.

Lemma reset_password_succeeds_iff token newPass env s :
  status (fst (reset_password (Js.str token) newPass env s)) = 200 <->
  exists u, In u (users s) /\ redeemable token (Date_now env) u.
Proof.
  rewrite reset_password_run.
  destruct (List.find _ (users s)) as [u|] eqn:Hf; simpl.
  - split; [intros _|reflexivity].
    apply List.find_some in Hf as [Hin Hu]. exists u. split; [exact Hin|].
    apply where_reset_true; exact Hu.
  - split; [discriminate|]. intros (u & Hin & Hred). exfalso.
    rewrite find_none_iff in Hf. specialize (Hf u Hin).
    apply where_reset_true in Hred. congruence.
Qed.

End ForgotPassword.

Lemma in_updated_row data l u :
  In u l -> In (data u) (prisma.update_rows (User.id u) data l).
Proof.
  intros Hin. unfold prisma.update_rows. apply List.in_map_iff.
  exists u. split; [|exact Hin].
  unfold prisma.where_id. rewrite Z.eqb_refl. reflexivity.
Qed.

(** C8: for every account, once a second forgot-password request has
    overwritten the stored resetToken/resetTokenExpiry pair, a
    reset-password request with the token issued by the first request never
    succeeds: at any later time it fails with 400 "Invalid or expired token"
    and writes nothing; the pair issued last completes a reset until its
    own expiry. The two tokens are distinct draws and the first was fresh
    when issued. *)
Theorem forgot_password_supersedes {bcrypt : Bcrypt}
    (s : Store) (email : string) (env1 env2 : Env) :
  (exists u, In u (users s) /\ User.email u = email) ->
  (forall v, In v (users s) -> User.resetToken v <> Some (opaque_token env1)) ->
  opaque_token env2 <> opaque_token env1 ->
  let s1 := snd (forgot_password email env1 s) in
  let s2 := snd (forgot_password email env2 s1) in
  (exists u1, In u1 (users s1) /\ User.email u1 = email /\
              User.resetToken u1 = Some (opaque_token env1) /\
              User.resetTokenExpiry u1 = Some (Date_now env1 + 900000))
  /\
  (exists u2, In u2 (users s2) /\ User.email u2 = email /\
              User.resetToken u2 = Some (opaque_token env2) /\
              User.resetTokenExpiry u2 = Some (Date_now env2 + 900000))
  /\
  (forall newPass env3,
     reset_password (Js.str (opaque_token env1)) newPass env3 s2
     = ({| status := 400; body := json_error "Invalid or expired token" |}, s2))
  /\
  (forall newPass env3,
     Date_now env3 <= Date_now env2 + 900000 ->
     status (fst (reset_password (Js.str (opaque_token env2)) newPass env3 s2)) = 200).
Proof.
  intros (w & Hw & Hemail) Hfresh Hdistinct s1 s2.
  destruct (List.find (prisma.where_email email) (users s)) as [u|] eqn:Hf.
  2:{ exfalso. rewrite find_none_iff in Hf. specialize (Hf w Hw).
      apply where_email_true in Hemail. congruence. }
  pose proof (List.find_some _ _ Hf) as [Hin Hu].
  apply where_email_true in Hu.
  assert (Hs1 : s1 = updated s (User.id u)
                  (User.set_reset (opaque_token env1) (Date_now env1 + 900000))).
  { unfold s1. rewrite forgot_password_run, Hf. reflexivity. }
  assert (Hs2 : s2 = updated s (User.id u)
                  (User.set_reset (opaque_token env2) (Date_now env2 + 900000))).
  { unfold s2, s1. apply forgot_password_twice. exact Hf. }
  split; [|split; [|split]].
  - exists (User.set_reset (opaque_token env1) (Date_now env1 + 900000) u).
    rewrite Hs1. simpl. split; [apply in_updated_row; exact Hin|]. auto.
  - exists (User.set_reset (opaque_token env2) (Date_now env2 + 900000) u).
    rewrite Hs2. simpl. split; [apply in_updated_row; exact Hin|]. auto.
  - intros newPass env3. apply reset_password_refused.
    unfold redeemable. intros v Hv [Htok _]. rewrite Hs2 in Hv. simpl in Hv.
    apply in_update_rows in Hv as (u0 & Hu0 & [->| ->]).
    + exact (Hfresh u0 Hu0 Htok).
    + apply Hdistinct.
      exact (f_equal (fun o => match o with Some t => t | None => EmptyString end)
               Htok).
  - intros newPass env3 Hnow. apply reset_password_succeeds_iff.
    exists (User.set_reset (opaque_token env2) (Date_now env2 + 900000) u).
    rewrite Hs2. simpl. split; [apply in_updated_row; exact Hin|].
    split; [reflexivity|]. exists (Date_now env2 + 900000). auto.
Qed.

Lemma forgot_password_supersedes_witness :
  reset_password (bcrypt := Reference.bcrypt)
    (Js.str (opaque_token (Reference.env_at 5000 x04))) "new"
    (Reference.env_at 7000 x06)
    (snd (forgot_password "ann@x.com" (Reference.env_at 6000 x05)
            (snd (forgot_password "ann@x.com" (Reference.env_at 5000 x04)
                    expiring_store))))
  = ({| status := 400; body := json_error "Invalid or expired token" |},
     snd (forgot_password "ann@x.com" (Reference.env_at 6000 x05)
            (snd (forgot_password "ann@x.com" (Reference.env_at 5000 x04)
                    expiring_store)))).
Proof.
  assert (Hreg : exists u, In u (users expiring_store)
                           /\ User.email u = "ann@x.com").
  { exists (User.mk 1 "Ann" "ann@x.com" "01$pw1" true None
              (Some "r1") (Some 1000) 10).
    split; [left; reflexivity | reflexivity]. }
  assert (Hfresh : forall v, In v (users expiring_store) ->
             User.resetToken v <> Some (opaque_token (Reference.env_at 5000 x04))).
  { intros v [<-|[]]. vm_compute. discriminate. }
  assert (Hdistinct : opaque_token (Reference.env_at 6000 x05)
                      <> opaque_token (Reference.env_at 5000 x04)).
  { vm_compute. discriminate. }
  destruct (forgot_password_supersedes (bcrypt := Reference.bcrypt)
              expiring_store "ann@x.com" (Reference.env_at 5000 x04)
              (Reference.env_at 6000 x05) Hreg Hfresh Hdistinct)
    as (_ & _ & Hfirst & _).
  apply Hfirst.
Defined.

(** ** Session tokens *)

Section SessionToken.

Context {jws : Jws}.
Variable JWT_SECRET : option string.

(** The clock of the token library counts whole seconds. *)
Lemma seconds_before_the_hour T V :
  V <= T + 3599000 -> V / 1000 < T / 1000 + 3600.
Proof.
  intros H.
  assert (V / 1000 <= (T + 3599 * 1000) / 1000)
    by (apply Z.div_le_mono; lia).
  rewrite Z.div_add in H0 by lia. lia.
Qed.

Lemma seconds_after_the_hour T V :
  T + 3600000 <= V -> T / 1000 + 3600 <= V / 1000.
Proof.
  intros H.
  assert ((T + 3600 * 1000) / 1000 <= V / 1000)
    by (apply Z.div_le_mono; lia).
  rewrite Z.div_add in H0 by lia. exact H0.
Qed.

Lemma guard_accepts_unexpired tok key c V next st :
  JWT_SECRET = Some key -> key <> EmptyString ->
  tok <> EmptyString -> Js.has_space tok = false ->
  jws_verify tok key = Some c ->
  (forall e, exp c = Some e -> V / 1000 < e) ->
  authenticateToken JWT_SECRET (Some ("Bearer " ++ tok)) V next st = next c st.
Proof.
  intros Hkey Hk Hne Hsp Hp Hfresh.
  apply (guard_passes JWT_SECRET _ tok).
  - apply bearer_token_standard; assumption.
  - apply (verify_valid _ tok key); assumption.
Qed.

Lemma guard_rejects_expired tok key c e V next st :
  JWT_SECRET = Some key ->
  tok <> EmptyString -> Js.has_space tok = false ->
  jws_verify tok key = Some c -> exp c = Some e -> e <= V / 1000 ->
  authenticateToken JWT_SECRET (Some ("Bearer " ++ tok)) V next st
  = ({| status := 403; body := json_error "Token inválido ou expirado" |}, st).
Proof.
  intros Hkey Hne Hsp Hp He Hle.
  apply (guard_rejects_403 JWT_SECRET _ tok).
  - apply bearer_token_standard; assumption.
  - apply verify_expired. intros key' payload Hkey' Hp'.
    rewrite Hkey in Hkey'. injection Hkey' as <-.
    rewrite Hp in Hp'. injection Hp' as <-.
    exists e. split; assumption.
Qed.

End SessionToken.

(** C6 (amended): every session token issued by a successful login at time
    T (in milliseconds) embeds the user's id as a claim and expires one hour
    after the whole second in which it was issued: the guard accepts it
    whenever the whole-second clock of the verification is below that of T
    plus 3600, so for every verification time up to T + 1 hour - 1 second
    (T + 59 min among them), and rejects it with 403 for every verification
    time at or after T + 1 hour (T + 61 min among them). The token is the
    compact serialisation of the claims: not empty, without a space, and
    verified by the key that signed it. *)
Theorem session_token_lifetime {bcrypt : Bcrypt} {jws : Jws}
    (JWT_SECRET : option string) (key : string) (s : Store)
    (email password : string) (env : Env) (u : User.t) :
  NoDup (List.map User.email (users s)) ->
  In u (users s) -> User.email u = email ->
  User.isVerified u = true ->
  bcrypt_compare password (User.password u) = true ->
  JWT_SECRET = Some key -> key <> EmptyString ->
  let T := Date_now env in
  let c := {| claim_id := User.id u; iat := T / 1000;
              exp := Some (T / 1000 + 3600) |} in
  let tok := jws_sign c key in
  tok <> EmptyString -> Js.has_space tok = false ->
  jws_verify tok key = Some c ->
  login JWT_SECRET email password env s
  = ({| status := 200; body := json_token tok |}, s)
  /\
  (forall V next st,
     V / 1000 < T / 1000 + 3600 ->
     authenticateToken JWT_SECRET (Some ("Bearer " ++ tok)) V next st
     = next c st)
  /\
  (forall V next st,
     V <= T + 3599000 ->
     authenticateToken JWT_SECRET (Some ("Bearer " ++ tok)) V next st
     = next c st)
  /\
  (forall V next st,
     T + 3600000 <= V ->
     authenticateToken JWT_SECRET (Some ("Bearer " ++ tok)) V next st
     = ({| status := 403; body := json_error "Token inválido ou expirado" |}, st)).
Proof.
  intros Huniq Hin Hemail Hver Hcmp Hkey Hk T c tok Hne Hsp Hp.
  assert (Haccept : forall V next st,
             V / 1000 < T / 1000 + 3600 ->
             authenticateToken JWT_SECRET (Some ("Bearer " ++ tok)) V next st
             = next c st).
  { intros V next st HV.
    apply (guard_accepts_unexpired JWT_SECRET tok key c); try assumption.
    intros e [= <-]. exact HV. }
  split; [|split; [exact Haccept|split]].
  - apply injective_projections; [|apply login_keeps_store].
    rewrite login_run. simpl snd.
    assert (Hf : List.find (prisma.where_email email) (users s) = Some u).
    { rewrite <- Hemail. apply find_by_email; assumption. }
    rewrite Hf, Hver, Hcmp, Hkey, sign_with_key by exact Hk. reflexivity.
  - intros V next st HV. apply Haccept.
    apply seconds_before_the_hour. exact HV.
  - intros V next st HV.
    apply (guard_rejects_expired JWT_SECRET tok key c (T / 1000 + 3600));
      try assumption; [reflexivity|].
    apply seconds_after_the_hour. exact HV.
Qed.

(** A token issued half a second into a second is refused half a second
    before its hour is over. *)
Lemma session_token_refused_within_the_hour :
  login (bcrypt := Reference.bcrypt) (jws := Reference.jws) Reference.secret
    "ann@x.com" "pw1" (Reference.env_at 1500 x02) expiring_store
  = ({| status := 200; body := json_token "s3cr3t.1.1.3601" |}, expiring_store)
  /\ 3601000 < 1500 + 3600000
  /\ authenticateToken (jws := Reference.jws) Reference.secret
       (Some "Bearer s3cr3t.1.1.3601") 3601000 wipe expiring_store
     = ({| status := 403; body := json_error "Token inválido ou expirado" |},
        expiring_store).
Proof.
  split; [reflexivity|]. split; [lia|reflexivity].
Qed.

Lemma session_token_lifetime_witness :
  authenticateToken (jws := Reference.jws) Reference.secret
    (Some "Bearer s3cr3t.1.1.3601") (1500 + 59 * 60000) wipe expiring_store
  = wipe {| claim_id := 1; iat := 1; exp := Some 3601 |} expiring_store
  /\
  authenticateToken (jws := Reference.jws) Reference.secret
    (Some "Bearer s3cr3t.1.1.3601") (1500 + 61 * 60000) wipe expiring_store
  = ({| status := 403; body := json_error "Token inválido ou expirado" |},
     expiring_store).
Proof.
  assert (Huniq : NoDup (List.map User.email (users expiring_store))).
  { simpl. constructor; [simpl; tauto | constructor]. }
  destruct (session_token_lifetime (bcrypt := Reference.bcrypt)
              (jws := Reference.jws) Reference.secret "s3cr3t" expiring_store
              "ann@x.com" "pw1" (Reference.env_at 1500 x02)
              (User.mk 1 "Ann" "ann@x.com" "01$pw1" true None
                 (Some "r1") (Some 1000) 10)
              Huniq (or_introl eq_refl) eq_refl eq_refl eq_refl eq_refl)
    as (_ & _ & Hbefore & Hafter).
  - discriminate.
  - discriminate.
  - reflexivity.
  - reflexivity.
  - split.
    + apply (Hbefore (1500 + 59 * 60000) wipe expiring_store). simpl. lia.
    + apply (Hafter (1500 + 61 * 60000) wipe expiring_store). simpl. lia.
Defined.

(** * More of the server *)

(** ** What the routes keep of the table *)

Section Keeps.

Context {bcrypt : Bcrypt} {jws : Jws}.
Variable JWT_SECRET : option string.

Lemma signed_up_and_verified_reachable :
  reachable (bcrypt := Reference.bcrypt) (jws := Reference.jws)
    Reference.secret signed_up_and_verified.
Proof.
  unfold signed_up_and_verified.
  apply reachable_serve. apply reachable_serve. apply reachable_fresh.
Qed.

Lemma Write_reset_pair data u :
  Write data -> reset_pair_consistent u -> reset_pair_consistent (data u).
Proof.
  intros [|h|tok expiry|h] Hu; try exact Hu.
  - right. exists tok, expiry. split; reflexivity.
  - left. split; reflexivity.
Qed.

Lemma effect_reset_pair s s' :
  effect s s' ->
  (forall u, In u (users s) -> reset_pair_consistent u) ->
  forall u, In u (users s') -> reset_pair_consistent u.
Proof.
  intros [|id data Hw|name email password verifyToken now Hfresh] Hall u Hu.
  - auto.
  - simpl in Hu. apply in_update_rows in Hu as (u0 & Hu0 & [->| ->]); auto.
    apply Write_reset_pair; auto.
  - simpl in Hu. apply List.in_app_or in Hu as [Hu|[<-|[]]]; auto.
    left. split; reflexivity.
Qed.

(** Every password a route writes comes out of [bcrypt.hash(_, 10)]. *)
Lemma serve_hashes c env s :
  (forall u, In u (users s) -> password_is_hash u) ->
  forall u, In u (users (snd (serve JWT_SECRET c env s))) -> password_is_hash u.
Proof.
  intros Hall.
  assert (Hupd : forall i data,
             (forall v, password_is_hash v -> password_is_hash (data v)) ->
             forall u, In u (users (updated s i data)) -> password_is_hash u).
  { intros i data Hdata u Hu. simpl in Hu.
    apply in_update_rows in Hu as (u0 & Hu0 & [->| ->]); auto. }
  destruct c as [name email password|token|email password
                |h current newPass|email|token newPass]; simpl.
  - rewrite signup_run.
    destruct (List.find _ (users s)); simpl; [exact Hall|].
    intros u Hu. apply List.in_app_or in Hu as [Hu|[<-|[]]]; auto.
    exists password, (salt env). reflexivity.
  - rewrite verify_email_field.
    destruct (prisma.where_verifyToken_field token) as [p|]; [|exact Hall].
    destruct (List.find p (users s)); simpl; [|exact Hall].
    apply Hupd. intros v Hv. exact Hv.
  - rewrite login_keeps_store. exact Hall.
  - unfold put_account_password, authenticateToken.
    destruct (Js.truthy (bearer_token h)) as [tok|]; [|exact Hall].
    destruct (jwt.verify tok JWT_SECRET (Date_now env)) as [e|user];
      [exact Hall|].
    rewrite account_password_run.
    destruct (List.find _ (users s)) as [u0|]; [|exact Hall].
    destruct (bcrypt_compare current (User.password u0)); [|exact Hall].
    apply Hupd. intros v _. exists newPass, (salt env). reflexivity.
  - rewrite forgot_password_run.
    destruct (List.find _ (users s)); simpl; [|exact Hall].
    apply Hupd. intros v Hv. exact Hv.
  - rewrite reset_password_field.
    destruct (prisma.where_reset_field token (Date_now env)) as [p|];
      [|exact Hall].
    destruct (List.find p (users s)); simpl; [|exact Hall].
    apply Hupd. intros v _. exists newPass, (salt env). reflexivity.
Qed.

Lemma same_account_refl u : same_account u u.
Proof. repeat split; auto. Qed.

Lemma same_account_trans u v w :
  same_account u v -> same_account v w -> same_account u w.
Proof.
  intros (Hi & Hn & He & Hc & Hv) (Hi' & Hn' & He' & Hc' & Hv').
  repeat split; try congruence. auto.
Qed.

Lemma Write_same_account data u : Write data -> same_account u (data u).
Proof.
  intros [|h|tok expiry|h]; repeat split; auto.
Qed.

Lemma Forall2_same_refl l : List.Forall2 same_account l l.
Proof. induction l; constructor; auto using same_account_refl. Qed.

Lemma Forall2_same_trans l1 : forall l2 l3,
  List.Forall2 same_account l1 l2 -> List.Forall2 same_account l2 l3 ->
  List.Forall2 same_account l1 l3.
Proof.
  induction l1 as [|a l1 IH]; intros l2 l3 H12 H23.
  - inversion H12; subst. inversion H23; subst. constructor.
  - inversion H12 as [|? b ? l2' Hab H12']; subst.
    inversion H23 as [|? c ? l3' Hbc H23']; subst.
    constructor; [eapply same_account_trans; eassumption|].
    eapply IH; eassumption.
Qed.

Lemma Forall2_same_update i data l :
  Write data -> List.Forall2 same_account l (prisma.update_rows i data l).
Proof.
  intros Hw. unfold prisma.update_rows.
  induction l as [|a l IH]; simpl; constructor; [|exact IH].
  destruct (prisma.where_id i a);
    [apply Write_same_account; exact Hw | apply same_account_refl].
Qed.

Lemma grows_into_refl s : grows_into s s.
Proof.
  split; [lia|]. exists (users s), []. rewrite List.app_nil_r.
  split; [reflexivity | apply Forall2_same_refl].
Qed.

Lemma grows_into_trans s1 s2 s3 :
  grows_into s1 s2 -> grows_into s2 s3 -> grows_into s1 s3.
Proof.
  intros (Hseq & k1 & a1 & Hs2 & H1) (Hseq' & k2 & a2 & Hs3 & H2).
  split; [lia|].
  rewrite Hs2 in H2.
  apply List.Forall2_app_inv_l in H2 as (k2a & k2b & Hk & Ha & ->).
  exists k2a, (k2b ++ a2)%list. split.
  - rewrite Hs3, List.app_assoc. reflexivity.
  - eapply Forall2_same_trans; eassumption.
Qed.

Lemma effect_grows s s' : effect s s' -> grows_into s s'.
Proof.
  intros [|id data Hw|name email password verifyToken now Hfresh].
  - apply grows_into_refl.
  - split; [simpl; lia|].
    exists (prisma.update_rows id data (users s)), [].
    rewrite List.app_nil_r. split; [reflexivity|].
    apply Forall2_same_update; exact Hw.
  - split; [simpl; lia|].
    eexists (users s), [_]. split; [reflexivity | apply Forall2_same_refl].
Qed.

End Keeps.

(** X1: every table the six account routes produce from a fresh database
    has distinct ids, distinct emails, and ids below the serial. *)
Theorem reachable_constraints {bcrypt : Bcrypt} {jws : Jws}
    (JWT_SECRET : option string) (s : Store) :
  reachable JWT_SECRET s ->
  NoDup (List.map User.id (users s)) /\
  NoDup (List.map User.email (users s)) /\
  forall u, In u (users s) -> User.id u < User_id_seq s.
Proof.
  induction 1 as [|c env s Hs IH].
  - repeat split; simpl; try constructor. intros u [].
  - exact (effect_well_formed _ _ (serve_effect JWT_SECRET c env s) IH).
Qed.

Lemma reachable_constraints_witness :
  NoDup (List.map User.id (users signed_up_and_verified)) /\
  NoDup (List.map User.email (users signed_up_and_verified)) /\
  forall u, In u (users signed_up_and_verified) ->
            User.id u < User_id_seq signed_up_and_verified.
Proof.
  exact (reachable_constraints (bcrypt := Reference.bcrypt)
           (jws := Reference.jws) Reference.secret signed_up_and_verified
           signed_up_and_verified_reachable).
Defined.

(** X2: in every table reachable from a fresh database, each account has
    resetToken and resetTokenExpiry both null or both set. *)
Theorem reset_pair_invariant {bcrypt : Bcrypt} {jws : Jws}
    (JWT_SECRET : option string) (s : Store) :
  reachable JWT_SECRET s ->
  forall u, In u (users s) -> reset_pair_consistent u.
Proof.
  induction 1 as [|c env s Hs IH].
  - intros u [].
  - exact (effect_reset_pair _ _ (serve_effect JWT_SECRET c env s) IH).
Qed.

Lemma reset_pair_invariant_witness :
  reset_pair_consistent
    (User.mk 1 "Ann" "ann@x.com" "01$pw1" true None None None 1000).
Proof.
  apply (reset_pair_invariant (bcrypt := Reference.bcrypt)
           (jws := Reference.jws) Reference.secret signed_up_and_verified
           signed_up_and_verified_reachable).
  vm_compute. left. reflexivity.
Defined.

(** X3: in every table reachable from a fresh database, the password
    column of each account is a value bcrypt.hash returned at 10 rounds:
    no route stores the password it was given. *)
Theorem passwords_stored_hashed {bcrypt : Bcrypt} {jws : Jws}
    (JWT_SECRET : option string) (s : Store) :
  reachable JWT_SECRET s ->
  forall u, In u (users s) ->
  exists data salt, User.password u = bcrypt_hash data 10 salt.
Proof.
  induction 1 as [|c env s Hs IH].
  - intros u [].
  - exact (serve_hashes JWT_SECRET c env s IH).
Qed.

Lemma passwords_stored_hashed_witness :
  exists data salt,
    "01$pw1" = bcrypt_hash (Bcrypt := Reference.bcrypt) data 10 salt.
Proof.
  apply (passwords_stored_hashed (bcrypt := Reference.bcrypt)
           (jws := Reference.jws) Reference.secret signed_up_and_verified
           signed_up_and_verified_reachable
           (User.mk 1 "Ann" "ann@x.com" "01$pw1" true None None None 1000)).
  vm_compute. left. reflexivity.
Defined.

(** X4: whatever requests are served, in whatever order, no account is
    deleted or moved, none changes its id, name, email or creation time, a
    verified account stays verified, and the serial never goes back: the
    table of before is a prefix, row for row, of the table of after. *)
Theorem accounts_persist {bcrypt : Bcrypt} {jws : Jws}
    (JWT_SECRET : option string) (calls : list (Call * Env)) (s : Store) :
  grows_into s (serve_all JWT_SECRET calls s).
Proof.
  revert s. induction calls as [|[c env] calls IH]; intros s; simpl.
  - apply grows_into_refl.
  - eapply grows_into_trans; [|apply IH].
    apply effect_grows. apply serve_effect.
Qed.

(** ** How the account routes compose *)

Section Flows.

Context {bcrypt : Bcrypt} {jws : Jws}.
Variable JWT_SECRET : option string.

Lemma signup_fresh name email password env s :
  (forall u, In u (users s) -> User.email u <> email) ->
  signup name email password env s
  = (after_mail env
       "Account created successfully! Please check your email to verify your account.",
     {| users := (users s ++
                  [schema_defaults (User_id_seq s) name email
                     (bcrypt_hash password 10 (salt env))
                     (opaque_token env) (Date_now env)])%list;
        User_id_seq := User_id_seq s + 1 |}).
Proof.
  intros Hfresh. rewrite signup_run.
  rewrite (email_fresh_find email (users s) Hfresh). reflexivity.
Qed.

Lemma find_email_appended email l u :
  (forall v, In v l -> User.email v <> email) -> User.email u = email ->
  List.find (prisma.where_email email) (l ++ [u])%list = Some u.
Proof.
  intros Hfresh Hu. apply find_first_match.
  - intros v Hv. destruct (prisma.where_email email v) eqn:E; [|reflexivity].
    apply where_email_true in E. exfalso. exact (Hfresh v Hv E).
  - apply where_email_true. exact Hu.
Qed.

Lemma find_email_after_write email i data l :
  (forall u, User.email (data u) = User.email u) ->
  List.find (prisma.where_email email) (prisma.update_rows i data l)
  = option_map (fun r => if prisma.where_id i r then data r else r)
      (List.find (prisma.where_email email) l).
Proof.
  intros Hdata. unfold prisma.update_rows. apply find_map_stable.
  intros x. unfold prisma.where_email.
  destruct (prisma.where_id i x); [rewrite Hdata|]; reflexivity.
Qed.

Lemma login_found email password env s u :
  List.find (prisma.where_email email) (users s) = Some u ->
  User.isVerified u = true ->
  bcrypt_compare password (User.password u) = true ->
  forall key, JWT_SECRET = Some key -> key <> EmptyString ->
  fst (login JWT_SECRET email password env s)
  = {| status := 200;
       body := json_token
                 (jws_sign {| claim_id := User.id u;
                              iat := Date_now env / 1000;
                              exp := Some (Date_now env / 1000 + 3600) |}
                           key) |}.
Proof.
  intros Hf Hv Hcmp key Hkey Hk.
  rewrite login_run, Hf, Hv, Hcmp, Hkey, sign_with_key by exact Hk.
  reflexivity.
Qed.

Lemma token_not_held_false (col : User.t -> option string) tok v :
  col v <> Some tok -> prisma.string_is (col v) tok = false.
Proof.
  intros H. destruct (prisma.string_is (col v) tok) eqn:E; [|reflexivity].
  apply string_is_true in E. contradiction.
Qed.

End Flows.

(** X5: when the mail relay fails during a signup with a fresh email, the
    answer is 500 with the relay's message, yet the unverified account has
    been created: every later signup with that email, whatever the name,
    password and draws, is refused with 400 "Email already registered" and
    writes nothing. *)
Theorem signup_mail_failure_blocks_retry {bcrypt : Bcrypt}
    (s : Store) (name email password : string) (env : Env) (reason : string) :
  (forall u, In u (users s) -> User.email u <> email) ->
  sendMail_error env = Some reason ->
  let r := signup name email password env s in
  fst r = {| status := 500; body := json_error reason |}
  /\
  (exists u, In u (users (snd r)) /\ User.email u = email /\
             User.isVerified u = false)
  /\
  (forall name' password' env',
     signup name' email password' env' (snd r)
     = ({| status := 400; body := json_error "Email already registered" |},
        snd r)).
Proof.
  intros Hfresh Hmail r. unfold r. rewrite (signup_fresh _ _ _ _ _ Hfresh).
  simpl. split; [|split].
  - unfold after_mail. rewrite Hmail. reflexivity.
  - eexists. split; [apply List.in_or_app; right; left; reflexivity|].
    split; reflexivity.
  - intros name' password' env'. rewrite signup_run. simpl.
    rewrite (find_email_appended email (users s)); [reflexivity| |reflexivity].
    exact Hfresh.
Qed.

Lemma signup_mail_failure_blocks_retry_witness :
  signup (bcrypt := Reference.bcrypt) "Bob" "bob@x.com" "pw3"
    (Reference.env_at 3000 x09)
    (snd (signup (bcrypt := Reference.bcrypt) "Bob" "bob@x.com" "pw2"
            {| Date_now := 2000; entropy := fun _ => x08; salt := [x08];
               sendMail_error := Some "relay down" |} expiring_store))
  = ({| status := 400; body := json_error "Email already registered" |},
     snd (signup (bcrypt := Reference.bcrypt) "Bob" "bob@x.com" "pw2"
            {| Date_now := 2000; entropy := fun _ => x08; salt := [x08];
               sendMail_error := Some "relay down" |} expiring_store)).
Proof.
  apply (signup_mail_failure_blocks_retry (bcrypt := Reference.bcrypt)
           expiring_store "Bob" "bob@x.com" "pw2"
           {| Date_now := 2000; entropy := fun _ => x08; salt := [x08];
              sendMail_error := Some "relay down" |} "relay down").
  - intros u [<-|[]]. simpl. discriminate.
  - reflexivity.
Defined.

(** X6: signup, then the link, then login. For a fresh email and a verify
    token no account holds yet, with a bcrypt that recognises the hash it
    just made and a configured secret: login right after signup is refused
    with 403; verify-email with the issued token answers 200; login after
    that answers 200 with a session token for the id the signup drew from
    the serial. *)
Theorem signup_verify_login {bcrypt : Bcrypt} {jws : Jws}
    (JWT_SECRET : option string) (key : string) (s : Store)
    (name email password : string) (env envL : Env) :
  JWT_SECRET = Some key -> key <> EmptyString ->
  (forall u, In u (users s) -> User.email u <> email) ->
  (forall u, In u (users s) -> User.verifyToken u <> Some (opaque_token env)) ->
  bcrypt_compare password (bcrypt_hash password 10 (salt env)) = true ->
  let s1 := snd (signup name email password env s) in
  let s2 := snd (verify_email (Js.str (opaque_token env)) s1) in
  fst (login JWT_SECRET email password envL s1)
  = {| status := 403;
       body := json_error "Please verify your email before logging in." |}
  /\
  fst (verify_email (Js.str (opaque_token env)) s1)
  = {| status := 200;
       body := json_message "Email verified successfully! You can now log in." |}
  /\
  fst (login JWT_SECRET email password envL s2)
  = {| status := 200;
       body := json_token
                 (jws_sign {| claim_id := User_id_seq s;
                              iat := Date_now envL / 1000;
                              exp := Some (Date_now envL / 1000 + 3600) |}
                           key) |}.
Proof.
  intros Hkey Hk Hfresh Htok Hcmp s1 s2.
  set (new := schema_defaults (User_id_seq s) name email
                (bcrypt_hash password 10 (salt env))
                (opaque_token env) (Date_now env)).
  assert (Hs1 : users s1 = (users s ++ [new])%list).
  { unfold s1. rewrite (signup_fresh _ _ _ _ _ Hfresh). reflexivity. }
  assert (Hfind1 : List.find (prisma.where_email email) (users s1) = Some new).
  { rewrite Hs1. apply find_email_appended; [exact Hfresh|reflexivity]. }
  assert (Hfindv : List.find (prisma.where_verifyToken (opaque_token env))
                     (users s1) = Some new).
  { rewrite Hs1. apply find_first_match.
    - intros v Hv. apply token_not_held_false. auto.
    - apply where_verifyToken_true. reflexivity. }
  split; [|split].
  - rewrite login_run, Hfind1. reflexivity.
  - rewrite verify_email_run, Hfindv. reflexivity.
  - assert (Hfind2 : List.find (prisma.where_email email) (users s2)
                     = Some (User.set_verified new)).
    { unfold s2. rewrite verify_email_run, Hfindv. simpl.
      rewrite find_email_after_write by reflexivity.
      rewrite Hfind1. simpl.
      unfold prisma.where_id. rewrite Z.eqb_refl. reflexivity. }
    rewrite (login_found JWT_SECRET _ _ _ _ _ Hfind2 eq_refl Hcmp key Hkey Hk).
    reflexivity.
Qed.

Lemma signup_verify_login_witness :
  fst (login (bcrypt := Reference.bcrypt) (jws := Reference.jws)
         Reference.secret "bob@x.com" "pw2" (Reference.env_at 5000 x0a)
         (snd (verify_email (Js.str (opaque_token (Reference.env_at 2000 x08)))
                 (snd (signup (bcrypt := Reference.bcrypt) "Bob" "bob@x.com"
                         "pw2" (Reference.env_at 2000 x08) expiring_store)))))
  = {| status := 200; body := json_token "s3cr3t.2.5.3605" |}.
Proof.
  destruct (signup_verify_login (bcrypt := Reference.bcrypt)
              (jws := Reference.jws) Reference.secret "s3cr3t" expiring_store
              "Bob" "bob@x.com" "pw2" (Reference.env_at 2000 x08)
              (Reference.env_at 5000 x0a) eq_refl)
    as (_ & _ & Hlogin).
  - discriminate.
  - intros u [<-|[]]. simpl. discriminate.
  - intros u [<-|[]]. simpl. discriminate.
  - reflexivity.
  - exact Hlogin.
Defined.

Section ResetFlows.

Context {bcrypt : Bcrypt}.

Lemma not_held_not_redeemable token now v :
  User.resetToken v <> Some token -> prisma.where_reset token now v = false.
Proof.
  intros H. apply not_redeemable_false. intros [Htok _]. contradiction.
Qed.

(** The table after a reset redeemed by the row [u] of a table with
    distinct ids. *)
Lemma reset_password_redeems s token newPass env l1 u l2 :
  NoDup (List.map User.id (users s)) ->
  users s = (l1 ++ u :: l2)%list ->
  redeemable token (Date_now env) u ->
  (forall v, In v l1 -> User.resetToken v <> Some token) ->
  reset_password (Js.str token) newPass env s
  = ({| status := 200; body := json_message "Password reset successful" |},
     {| users := (l1 ++ User.set_password_clear_reset
                          (bcrypt_hash newPass 10 (salt env)) u :: l2)%list;
        User_id_seq := User_id_seq s |}).
Proof.
  intros Hpk Hs Hred Hl1. rewrite reset_password_run, Hs.
  rewrite (find_first_match _ l1 u l2).
  - unfold updated. rewrite Hs. rewrite Hs in Hpk.
    rewrite (update_rows_unique _ _ _ _ Hpk). reflexivity.
  - intros v Hv. apply not_held_not_redeemable; auto.
  - apply where_reset_true; exact Hred.
Qed.

Lemma forgot_password_stores s email env l1 u l2 :
  NoDup (List.map User.id (users s)) ->
  NoDup (List.map User.email (users s)) ->
  users s = (l1 ++ u :: l2)%list -> User.email u = email ->
  forgot_password email env s
  = (after_mail env "Password reset email sent",
     {| users := (l1 ++ User.set_reset (opaque_token env)
                          (Date_now env + 900000) u :: l2)%list;
        User_id_seq := User_id_seq s |}).
Proof.
  intros Hpk Huniq Hs Hemail. rewrite forgot_password_run.
  assert (Hin : In u (users s)).
  { rewrite Hs. apply List.in_or_app. right. left. reflexivity. }
  rewrite <- Hemail, (find_by_email _ _ Huniq Hin).
  unfold updated. rewrite Hs. rewrite Hs in Hpk.
  rewrite (update_rows_unique _ _ _ _ Hpk). reflexivity.
Qed.

Lemma in_split_middle (l1 : list User.t) u l2 v :
  In v (l1 ++ u :: l2)%list -> In v l1 \/ v = u \/ In v l2.
Proof.
  intros H. apply List.in_app_or in H as [H|[H|H]]; auto.
Qed.

End ResetFlows.

(** X7: forgot-password, then reset-password, then login. For a verified
    account of a table with distinct ids and emails, and a reset token no
    account holds yet: whether or not the mail went out, a reset with the
    issued token up to fifteen minutes (900000 ms) after the request
    answers 200; a login with the new password then answers 200 with a
    session token (bcrypt recognising the hash it made, the secret being
    configured); and no account holds the token any more. *)
Theorem forgot_reset_login {bcrypt : Bcrypt} {jws : Jws}
    (JWT_SECRET : option string) (key : string) (s : Store) (email : string)
    (newPass : string) (env1 env2 envL : Env)
    (l1 : list User.t) (u : User.t) (l2 : list User.t) :
  JWT_SECRET = Some key -> key <> EmptyString ->
  NoDup (List.map User.id (users s)) ->
  NoDup (List.map User.email (users s)) ->
  users s = (l1 ++ u :: l2)%list ->
  User.email u = email -> User.isVerified u = true ->
  (forall v, In v (users s) -> User.resetToken v <> Some (opaque_token env1)) ->
  Date_now env2 <= Date_now env1 + 900000 ->
  bcrypt_compare newPass (bcrypt_hash newPass 10 (salt env2)) = true ->
  let s1 := snd (forgot_password email env1 s) in
  let s2 := snd (reset_password (Js.str (opaque_token env1)) newPass env2 s1) in
  fst (reset_password (Js.str (opaque_token env1)) newPass env2 s1)
  = {| status := 200; body := json_message "Password reset successful" |}
  /\
  fst (login JWT_SECRET email newPass envL s2)
  = {| status := 200;
       body := json_token
                 (jws_sign {| claim_id := User.id u;
                              iat := Date_now envL / 1000;
                              exp := Some (Date_now envL / 1000 + 3600) |}
                           key) |}
  /\
  (forall v, In v (users s2) -> User.resetToken v <> Some (opaque_token env1)).
Proof.
  intros Hkey Hk Hpk Huniq Hs Hemail Hver Hfresh Hnow Hcmp s1 s2.
  set (u1 := User.set_reset (opaque_token env1) (Date_now env1 + 900000) u).
  set (u2 := User.set_password_clear_reset
               (bcrypt_hash newPass 10 (salt env2)) u1).
  assert (Hl1 : forall v, In v l1 -> User.resetToken v <> Some (opaque_token env1)).
  { intros v Hv. apply Hfresh. rewrite Hs. apply List.in_or_app. auto. }
  assert (Hl2 : forall v, In v l2 -> User.resetToken v <> Some (opaque_token env1)).
  { intros v Hv. apply Hfresh. rewrite Hs. apply List.in_or_app.
    right. right. exact Hv. }
  assert (Hs1 : s1 = {| users := (l1 ++ u1 :: l2)%list;
                        User_id_seq := User_id_seq s |}).
  { unfold s1. rewrite (forgot_password_stores s email env1 l1 u l2); auto. }
  assert (Hpk1 : NoDup (List.map User.id (users s1))).
  { rewrite Hs1. simpl. rewrite Hs in Hpk.
    rewrite List.map_app in *. exact Hpk. }
  assert (Hreset : reset_password (Js.str (opaque_token env1)) newPass env2 s1
                   = ({| status := 200;
                         body := json_message "Password reset successful" |},
                      {| users := (l1 ++ u2 :: l2)%list;
                         User_id_seq := User_id_seq s1 |})).
  { apply (reset_password_redeems s1 _ newPass env2 l1 u1 l2 Hpk1).
    - rewrite Hs1. reflexivity.
    - split; [reflexivity|]. exists (Date_now env1 + 900000).
      split; [reflexivity|exact Hnow].
    - exact Hl1. }
  split; [rewrite Hreset; reflexivity|].
  assert (Hs2 : users s2 = (l1 ++ u2 :: l2)%list).
  { unfold s2. rewrite Hreset. reflexivity. }
  split.
  - apply (login_found JWT_SECRET email newPass envL s2 u2);
      try assumption; try reflexivity.
    rewrite Hs2, <- Hemail.
    change (User.email u) with (User.email u2).
    apply find_by_email.
    + rewrite Hs in Huniq. rewrite List.map_app in *. exact Huniq.
    + apply List.in_or_app. right. left. reflexivity.
  - intros v Hv. rewrite Hs2 in Hv.
    apply in_split_middle in Hv as [Hv|[->|Hv]]; auto.
    simpl. discriminate.
Qed.

Lemma forgot_reset_login_witness :
  fst (login (bcrypt := Reference.bcrypt) (jws := Reference.jws)
         Reference.secret "ann@x.com" "new" (Reference.env_at 950000 x0c)
         (snd (reset_password (bcrypt := Reference.bcrypt)
                 (Js.str (opaque_token (Reference.env_at 5000 x04))) "new"
                 (Reference.env_at 905000 x0b)
                 (snd (forgot_password "ann@x.com" (Reference.env_at 5000 x04)
                         expiring_store)))))
  = {| status := 200; body := json_token "s3cr3t.1.950.4550" |}.
Proof.
  destruct (forgot_reset_login (bcrypt := Reference.bcrypt)
              (jws := Reference.jws) Reference.secret "s3cr3t" expiring_store
              "ann@x.com" "new" (Reference.env_at 5000 x04)
              (Reference.env_at 905000 x0b) (Reference.env_at 950000 x0c)
              [] (User.mk 1 "Ann" "ann@x.com" "01$pw1" true None
                    (Some "r1") (Some 1000) 10) [] eq_refl)
    as (_ & Hlogin & _).
  - discriminate.
  - simpl. constructor; [simpl; tauto | constructor].
  - simpl. constructor; [simpl; tauto | constructor].
  - reflexivity.
  - reflexivity.
  - reflexivity.
  - intros v [<-|[]]. vm_compute. discriminate.
  - simpl. lia.
  - reflexivity.
  - exact Hlogin.
Defined.

(** X8: a reset token is single-use. In a table with distinct ids where
    one account holds the token, unexpired, and no other account holds it,
    once a reset with it has gone through every later reset with the same
    token, at any time and with any new password, answers 400 "Invalid or
    expired token" and writes nothing. *)
Theorem reset_password_single_use {bcrypt : Bcrypt}
    (s : Store) (token newPass : string) (env : Env)
    (l1 : list User.t) (u : User.t) (l2 : list User.t) :
  NoDup (List.map User.id (users s)) ->
  users s = (l1 ++ u :: l2)%list ->
  redeemable token (Date_now env) u ->
  (forall v, In v (l1 ++ l2)%list -> User.resetToken v <> Some token) ->
  let r := reset_password (Js.str token) newPass env s in
  status (fst r) = 200 /\
  forall newPass' env',
    reset_password (Js.str token) newPass' env' (snd r)
    = ({| status := 400; body := json_error "Invalid or expired token" |},
       snd r).
Proof.
  intros Hpk Hs Hred Hothers r.
  assert (Hl1 : forall v, In v l1 -> User.resetToken v <> Some token)
    by (intros v Hv; apply Hothers, List.in_or_app; auto).
  assert (Hl2 : forall v, In v l2 -> User.resetToken v <> Some token)
    by (intros v Hv; apply Hothers, List.in_or_app; auto).
  unfold r.
  rewrite (reset_password_redeems s token newPass env l1 u l2 Hpk Hs Hred Hl1).
  simpl. split; [reflexivity|].
  intros newPass' env'. apply reset_password_refused. simpl.
  intros v Hv [Htok _].
  apply in_split_middle in Hv as [Hv|[->|Hv]].
  - exact (Hl1 v Hv Htok).
  - simpl in Htok. discriminate.
  - exact (Hl2 v Hv Htok).
Qed.

Lemma reset_password_single_use_witness :
  reset_password (bcrypt := Reference.bcrypt) (Js.str "r1") "again"
    (Reference.env_at 600 x06)
    (snd (reset_password (bcrypt := Reference.bcrypt) (Js.str "r1") "new"
            (Reference.env_at 500 x05) expiring_store))
  = ({| status := 400; body := json_error "Invalid or expired token" |},
     snd (reset_password (bcrypt := Reference.bcrypt) (Js.str "r1") "new"
            (Reference.env_at 500 x05) expiring_store)).
Proof.
  destruct (reset_password_single_use (bcrypt := Reference.bcrypt)
              expiring_store "r1" "new" (Reference.env_at 500 x05)
              [] (User.mk 1 "Ann" "ann@x.com" "01$pw1" true None
                    (Some "r1") (Some 1000) 10) [])
    as (_ & Hagain).
  - simpl. constructor; [simpl; tauto | constructor].
  - reflexivity.
  - split; [reflexivity|]. exists 1000. split; [reflexivity|simpl; lia].
  - intros v [].
  - apply Hagain.
Defined.

(** X9: a password change does not end the session. With the same bearer
    header still within its hour, after a first change went through, a
    second change that gives the new password as the current one goes
    through too (bcrypt recognising the hash it made); ids are distinct. *)
Theorem password_change_keeps_session {bcrypt : Bcrypt} {jws : Jws}
    (JWT_SECRET : option string) (s : Store) (h : option string)
    (current newPass newer : string) (env1 env2 : Env)
    (l1 : list User.t) (u : User.t) (l2 : list User.t) (c : Claims) :
  NoDup (List.map User.id (users s)) ->
  users s = (l1 ++ u :: l2)%list ->
  authenticated JWT_SECRET h (Date_now env1) c ->
  authenticated JWT_SECRET h (Date_now env2) c ->
  claim_id c = User.id u ->
  bcrypt_compare current (User.password u) = true ->
  bcrypt_compare newPass (bcrypt_hash newPass 10 (salt env1)) = true ->
  let r1 := put_account_password JWT_SECRET h current newPass env1 s in
  fst r1 = {| status := 200; body := json_message "Senha alterada com sucesso" |}
  /\
  fst (put_account_password JWT_SECRET h newPass newer env2 (snd r1))
  = {| status := 200; body := json_message "Senha alterada com sucesso" |}.
Proof.
  intros Hpk Hs Hauth1 Hauth2 Hid Hcur Hnew r1.
  assert (Hin : In u (users s)).
  { rewrite Hs. apply List.in_or_app. right. left. reflexivity. }
  assert (Hr1 : r1 = ({| status := 200;
                         body := json_message "Senha alterada com sucesso" |},
                      updated s (User.id u)
                        (User.set_password (bcrypt_hash newPass 10 (salt env1))))).
  { unfold r1.
    rewrite (put_account_password_authenticated _ _ _ _ _ c) by exact Hauth1.
    rewrite account_password_run, Hid, (find_by_id _ _ Hpk Hin), Hcur.
    reflexivity. }
  rewrite Hr1. simpl. split; [reflexivity|].
  rewrite (put_account_password_authenticated _ _ _ _ _ c) by exact Hauth2.
  rewrite account_password_run, Hid. simpl.
  unfold updated at 1. simpl.
  rewrite Hs. rewrite Hs in Hpk.
  rewrite (update_rows_unique _ _ _ _ Hpk).
  assert (Hpk' : NoDup (List.map User.id
                   (l1 ++ User.set_password
                            (bcrypt_hash newPass 10 (salt env1)) u :: l2)%list)).
  { rewrite List.map_app in *. exact Hpk. }
  change (User.id u)
    with (User.id (User.set_password (bcrypt_hash newPass 10 (salt env1)) u))
    at 1.
  rewrite (find_by_id _ _ Hpk');
    [|apply List.in_or_app; right; left; reflexivity].
  simpl. rewrite Hnew. reflexivity.
Qed.

Lemma password_change_keeps_session_witness :
  fst (put_account_password (bcrypt := Reference.bcrypt)
         (jws := Reference.jws) Reference.secret
         (Some "Bearer s3cr3t.1.1.3601") "pw2" "pw3" (Reference.env_at 2000 x04)
         (snd (put_account_password (bcrypt := Reference.bcrypt)
                 (jws := Reference.jws) Reference.secret
                 (Some "Bearer s3cr3t.1.1.3601") "pw1" "pw2"
                 (Reference.env_at 2000 x03) expiring_store)))
  = {| status := 200; body := json_message "Senha alterada com sucesso" |}.
Proof.
  destruct (password_change_keeps_session (bcrypt := Reference.bcrypt)
              (jws := Reference.jws) Reference.secret expiring_store
              (Some "Bearer s3cr3t.1.1.3601") "pw1" "pw2" "pw3"
              (Reference.env_at 2000 x03) (Reference.env_at 2000 x04)
              [] (User.mk 1 "Ann" "ann@x.com" "01$pw1" true None
                    (Some "r1") (Some 1000) 10) []
              {| claim_id := 1; iat := 1; exp := Some 3601 |})
    as (_ & Hsecond).
  - simpl. constructor; [simpl; tauto | constructor].
  - reflexivity.
  - exact reference_session_authenticated.
  - exact reference_session_authenticated.
  - reflexivity.
  - reflexivity.
  - reflexivity.
  - exact Hsecond.
Defined.

(** X10: forgot-password on a table with distinct ids and emails. An
    unknown email gets 404 "User not found" and nothing is written. For a
    registered email, only that account's resetToken and resetTokenExpiry
    change: to a token of sixty-four hexadecimal digits and to the clock
    plus 900000 ms; they are stored before the mail goes out, so a relay
    failure answers 500 with the pair already in the table. *)
Theorem forgot_password_frame (s : Store) (email : string) (env : Env) :
  NoDup (List.map User.id (users s)) ->
  NoDup (List.map User.email (users s)) ->
  ((forall u, In u (users s) -> User.email u <> email) ->
   forgot_password email env s
   = ({| status := 404; body := json_error "User not found" |}, s))
  /\
  (forall l1 u l2,
     users s = (l1 ++ u :: l2)%list -> User.email u = email ->
     exists tok,
       String.length tok = 64%nat /\
       snd (forgot_password email env s)
       = {| users :=
              (l1 ++ User.mk (User.id u) (User.name u) (User.email u)
                       (User.password u) (User.isVerified u)
                       (User.verifyToken u)
                       (Some tok) (Some (Date_now env + 900000))
                       (User.createdAt u) :: l2)%list;
            User_id_seq := User_id_seq s |}
       /\
       (sendMail_error env = None ->
        fst (forgot_password email env s)
        = {| status := 200; body := json_message "Password reset email sent" |})
       /\
       (forall reason, sendMail_error env = Some reason ->
          fst (forgot_password email env s)
          = {| status := 500; body := json_error reason |})).
Proof.
  intros Hpk Huniq. split.
  - intros Hnone. rewrite forgot_password_run.
    rewrite (email_fresh_find email (users s) Hnone). reflexivity.
  - intros l1 u l2 Hs Hemail. exists (opaque_token env).
    rewrite (forgot_password_stores s email env l1 u l2 Hpk Huniq Hs Hemail).
    split; [exact (opaque_token_length env)|]. split; [reflexivity|].
    unfold after_mail. cbn [fst]. split.
    + intros ->. reflexivity.
    + intros reason ->. reflexivity.
Qed.

Lemma forgot_password_frame_witness :
  forgot_password "nobody@x.com" (Reference.env_at 5000 x04) expiring_store
  = ({| status := 404; body := json_error "User not found" |}, expiring_store).
Proof.
  destruct (forgot_password_frame expiring_store "nobody@x.com"
              (Reference.env_at 5000 x04)) as [Hunknown _].
  - simpl. constructor; [simpl; tauto | constructor].
  - simpl. constructor; [simpl; tauto | constructor].
  - apply Hunknown. intros u [<-|[]]. simpl. discriminate.
Defined.

(** ** Strings: tokens, headers, file names *)

Section Strings.

Lemma byte_of_hex_digits b :
  byte_of_hex (Crypto.hex_digit (Byte.to_N b / 16))
              (Crypto.hex_digit (Byte.to_N b mod 16)) = Some b.
Proof. destruct b; vm_compute; reflexivity. Qed.

Lemma byte_hex_digits_hex b :
  is_hex_digit (Crypto.hex_digit (Byte.to_N b / 16))
  && is_hex_digit (Crypto.hex_digit (Byte.to_N b mod 16)) = true.
Proof. destruct b; vm_compute; reflexivity. Qed.

(** Two byte strings that print the same in hexadecimal are the same. *)
Lemma toString_hex_injective bs1 : forall bs2,
  Crypto.toString_hex bs1 = Crypto.toString_hex bs2 -> bs1 = bs2.
Proof.
  induction bs1 as [|b1 bs1 IH]; intros [|b2 bs2]; simpl;
    try reflexivity; try discriminate.
  unfold Crypto.byte_hex. intros [= Hhi Hlo Hrest].
  pose proof (byte_of_hex_digits b1) as H1.
  rewrite Hhi, Hlo, byte_of_hex_digits in H1. injection H1 as ->.
  f_equal. apply IH. exact Hrest.
Qed.

Lemma toString_hex_alphabet bs :
  all_chars is_hex_digit (Crypto.toString_hex bs) = true.
Proof.
  induction bs as [|b bs IH]; [reflexivity|].
  simpl Crypto.toString_hex. unfold Crypto.byte_hex.
  cbn [all_chars]. rewrite IH, andb_true_r. apply byte_hex_digits_hex.
Qed.

Lemma split_space_nonempty s : Js.split_space s <> [].
Proof.
  destruct s as [|c s]; simpl; [discriminate|].
  destruct (Ascii.eqb c " "); [discriminate|].
  destruct (Js.split_space s); discriminate.
Qed.

Lemma join_space_cons c w ws :
  join_space (String c w :: ws) = String c (join_space (w :: ws)).
Proof. destruct ws; reflexivity. Qed.

Lemma split_space_head scheme rest :
  Js.has_space scheme = false ->
  Js.split_space (scheme ++ String " " rest) = scheme :: Js.split_space rest.
Proof.
  intros Hs. induction scheme as [|c scheme IH]; simpl; [reflexivity|].
  simpl in Hs. destruct (Ascii.eqb c " "); simpl in Hs; [discriminate|].
  rewrite (IH Hs). reflexivity.
Qed.

Lemma all_chars_with_dot x y :
  all_chars extension_char (x ++ String "." y) = false.
Proof.
  induction x as [|c x IH]; simpl.
  - reflexivity.
  - rewrite IH. apply andb_false_r.
Qed.

End Strings.

(** X11: two requests draw the same opaque token (the verify token of a
    signup, the reset token of a forgot-password) exactly when the first
    thirty-two bytes of their random draws are the same: the hexadecimal
    print loses nothing. *)
Theorem opaque_token_collision (env1 env2 : Env) :
  opaque_token env1 = opaque_token env2 <->
  forall i, (i < 32)%nat -> entropy env1 i = entropy env2 i.
Proof.
  unfold opaque_token, Crypto.randomBytes. split.
  - intros Heq i Hi. apply toString_hex_injective in Heq.
    apply (proj1 (List.map_ext_in_iff (l := List.seq 0 32)) Heq).
    apply List.in_seq. lia.
  - intros Hsame. f_equal. apply List.map_ext_in.
    intros i Hi. apply List.in_seq in Hi. apply Hsame. lia.
Qed.

(** X12: every opaque token is made of the digits 0-9 and a-f only (so it
    goes into the link of the mail as it is). *)
Theorem opaque_token_alphabet (env : Env) :
  all_chars is_hex_digit (opaque_token env) = true.
Proof. unfold opaque_token. apply toString_hex_alphabet. Qed.

(** X13: splitting a header on spaces loses nothing: the pieces are never
    none, none of them contains a space, and joined with single spaces they
    give the header back. *)
Theorem split_space_join (s : string) :
  Js.split_space s <> [] /\
  (forall w, In w (Js.split_space s) -> Js.has_space w = false) /\
  join_space (Js.split_space s) = s.
Proof.
  split; [apply split_space_nonempty|].
  induction s as [|c s [IHsp IHjoin]]; simpl.
  - split; [intros w [<-|[]]; reflexivity | reflexivity].
  - destruct (Ascii.eqb c " ") eqn:Hc.
    + apply Ascii.eqb_eq in Hc. subst c. split.
      * intros w [<-|Hw]; [reflexivity | auto].
      * pose proof (split_space_nonempty s) as Hne.
        destruct (Js.split_space s) as [|w ws]; [congruence|].
        rewrite <- IHjoin. reflexivity.
    + pose proof (split_space_nonempty s) as Hne.
      destruct (Js.split_space s) as [|w ws]; [congruence|].
      split.
      * intros w' [<-|Hw'].
        -- simpl. rewrite Hc. simpl. apply IHsp. left. reflexivity.
        -- apply IHsp. right. exact Hw'.
      * rewrite join_space_cons, IHjoin. reflexivity.
Qed.

(** X14: the guard does not look at the scheme word of the authorization
    header, nor at anything after the second word: for a token without a
    space, "<scheme> <token>" and "<scheme> <token> <more>" are treated
    exactly as "Bearer <token>", whatever the scheme (Basic, Token, or
    nothing at all) and the downstream handler. *)
Theorem authenticateToken_ignores_scheme {jws : Jws}
    (JWT_SECRET : option string) (scheme tok more : string) (now : Z)
    (next : Claims -> Store -> Response * Store) (s : Store) :
  Js.has_space scheme = false ->
  Js.has_space tok = false ->
  authenticateToken JWT_SECRET (Some (scheme ++ String " " tok)) now next s
  = authenticateToken JWT_SECRET (Some ("Bearer " ++ tok)) now next s
  /\
  authenticateToken JWT_SECRET
    (Some (scheme ++ String " " (tok ++ String " " more))) now next s
  = authenticateToken JWT_SECRET (Some ("Bearer " ++ tok)) now next s.
Proof.
  intros Hscheme Htok.
  assert (Hstd : bearer_token (Some ("Bearer " ++ tok)) = Some tok).
  { unfold bearer_token.
    change ("Bearer " ++ tok) with ("Bearer" ++ String " " tok).
    replace (Js.truthy (Some ("Bearer" ++ String " " tok)))
      with (Some ("Bearer" ++ String " " tok)) by reflexivity.
    rewrite (split_space_two "Bearer" tok eq_refl Htok). reflexivity. }
  assert (Htruthy : forall rest,
             Js.truthy (Some (scheme ++ String " " rest))
             = Some (scheme ++ String " " rest)).
  { intros rest. destruct scheme; reflexivity. }
  unfold authenticateToken. rewrite Hstd. split.
  - unfold bearer_token. rewrite Htruthy.
    rewrite (split_space_two scheme tok Hscheme Htok). reflexivity.
  - unfold bearer_token. rewrite Htruthy.
    rewrite (split_space_head scheme _ Hscheme).
    rewrite (split_space_head tok _ Htok). reflexivity.
Qed.

Lemma authenticateToken_ignores_scheme_witness :
  authenticateToken (jws := Reference.jws) Reference.secret
    (Some "Basic s3cr3t.1.1.3601") 2000 wipe expiring_store
  = wipe {| claim_id := 1; iat := 1; exp := Some 3601 |} expiring_store.
Proof.
  destruct (authenticateToken_ignores_scheme (jws := Reference.jws)
              Reference.secret "Basic" "s3cr3t.1.1.3601" EmptyString 2000 wipe
              expiring_store eq_refl eq_refl) as [Hsame _].
  simpl in Hsame. rewrite Hsame. reflexivity.
Defined.

(** X15: the new name of a renamed image loses its last extension and
    nothing else. A name "<stem>.<ext>", with <ext> not empty and without
    dot or slash, becomes "<stem>" (so "a.tar.gz" becomes "a.tar" and
    ".png" becomes the empty name); a name without a dot is kept as it is;
    and the result is always a prefix of the name. *)
Theorem safeName_strips_last_extension (newFilename : string) :
  (forall stem ext,
     newFilename = stem ++ String "." ext ->
     ext <> EmptyString -> all_chars extension_char ext = true ->
     safeName newFilename = stem)
  /\
  (has_dot newFilename = false -> safeName newFilename = newFilename)
  /\
  (exists cut, newFilename = safeName newFilename ++ cut).
Proof.
  split; [|split].
  - intros stem ext -> Hne Hext.
    induction stem as [|c stem IH]; simpl.
    + destruct ext as [|e ext]; [congruence|]. rewrite Hext. reflexivity.
    + rewrite all_chars_with_dot, andb_false_r. rewrite IH. reflexivity.
  - induction newFilename as [|c rest IH]; simpl; [reflexivity|].
    destruct (Ascii.eqb c "."); simpl; [discriminate|].
    intros Hrest. rewrite (IH Hrest). reflexivity.
  - induction newFilename as [|c rest [cut IH]]; simpl.
    + exists EmptyString. reflexivity.
    + destruct (Ascii.eqb c "." && _ && _).
      * exists (String c rest). reflexivity.
      * exists cut. simpl. rewrite <- IH. reflexivity.
Qed.

Lemma safeName_strips_last_extension_witness :
  safeName "a.tar.gz" = "a.tar" /\ safeName ".png" = EmptyString.
Proof.
  destruct (safeName_strips_last_extension "a.tar.gz") as [Hcut _].
  destruct (safeName_strips_last_extension ".png") as [Hdot _].
  split.
  - apply (Hcut "a.tar" "gz"); [reflexivity | discriminate | reflexivity].
  - apply (Hdot EmptyString "png"); [reflexivity | discriminate | reflexivity].
Defined.

(** ** Account profile *)

Section Profile.

Lemma others_have_other_ids (l1 : list User.t) u l2 :
  NoDup (List.map User.id (l1 ++ u :: l2)%list) ->
  forall v, In v (l1 ++ l2)%list -> User.id v <> User.id u.
Proof.
  intros Hnd v Hv Heq. rewrite List.map_app in Hnd. simpl in Hnd.
  apply List.NoDup_remove_2 in Hnd. rewrite <- List.map_app in Hnd.
  apply Hnd. rewrite <- Heq. apply List.in_map. exact Hv.
Qed.

Lemma email_taken_iff id email l :
  List.existsb
    (fun r => prisma.where_email email r && negb (prisma.where_id id r)) l
  = true
  <-> exists v, In v l /\ User.email v = email /\ User.id v <> id.
Proof.
  rewrite List.existsb_exists. split.
  - intros (v & Hv & Hp). apply andb_true_iff in Hp as [He Hi].
    exists v. split; [exact Hv|]. split; [apply where_email_true; exact He|].
    intros Hid. apply where_id_true in Hid. rewrite Hid in Hi. discriminate.
  - intros (v & Hv & He & Hi). exists v. split; [exact Hv|].
    apply andb_true_iff. split; [apply where_email_true; exact He|].
    destruct (prisma.where_id id v) eqn:E; [|reflexivity].
    apply where_id_true in E. contradiction.
Qed.

Lemma put_account_run id name email s :
  put_account id name email s =
  match List.find (prisma.where_id id) (users s) with
  | None =>
      ({| account_status := 500;
          account_body := account_error (message PrismaRecordNotFound) |}, s)
  | Some u =>
      if List.existsb
           (fun r => prisma.where_email email r && negb (prisma.where_id id r))
           (users s)
      then ({| account_status := 500;
               account_body :=
                 account_error (message (PrismaUniqueConstraint "email")) |}, s)
      else ({| account_status := 200;
               account_body :=
                 account_updated "Conta atualizada com sucesso"
                   (User.id u, name, email) |},
            updated s id (set_profile name email))
  end.
Proof.
  unfold put_account, update_profile.
  destruct (List.find _ (users s)) as [u|]; [|reflexivity].
  destruct (List.existsb _ (users s)); reflexivity.
Qed.

Lemma NoDup_replace_middle (a : list string) x y b :
  NoDup (a ++ y :: b)%list -> ~ In x (a ++ b)%list ->
  NoDup (a ++ x :: b)%list.
Proof.
  intros Hnd Hx. apply List.NoDup_remove_1 in Hnd.
  apply (proj2 (List.NoDup_Add (List.Add_app x a b))). split; assumption.
Qed.

End Profile.

(** X16: PUT /api/account for the authenticated id, on a table with
    distinct ids. When no account has the id, the answer is 500 and nothing
    is written. When the new email belongs to another account, the answer
    is 500 and nothing is written. Otherwise the answer is 200 with the id
    and the new name and email, and only the name and email of that one
    account change: its password, isVerified, verifyToken, resetToken and
    resetTokenExpiry, and every other account, stay as they were (a changed
    email is not verified again). *)
Theorem put_account_frame (s : Store) (name email : string) :
  NoDup (List.map User.id (users s)) ->
  (forall id,
     (forall v, In v (users s) -> User.id v <> id) ->
     account_status (fst (put_account id name email s)) = 500 /\
     snd (put_account id name email s) = s)
  /\
  (forall l1 u l2,
     users s = (l1 ++ u :: l2)%list ->
     ((exists v, In v (l1 ++ l2)%list /\ User.email v = email) ->
      account_status (fst (put_account (User.id u) name email s)) = 500 /\
      snd (put_account (User.id u) name email s) = s)
     /\
     ((forall v, In v (l1 ++ l2)%list -> User.email v <> email) ->
      put_account (User.id u) name email s
      = ({| account_status := 200;
            account_body :=
              account_updated "Conta atualizada com sucesso"
                (User.id u, name, email) |},
         {| users :=
              (l1 ++ User.mk (User.id u) name email (User.password u)
                       (User.isVerified u) (User.verifyToken u)
                       (User.resetToken u) (User.resetTokenExpiry u)
                       (User.createdAt u) :: l2)%list;
            User_id_seq := User_id_seq s |}))).
Proof.
  intros Hpk. split.
  - intros id Hnone. rewrite put_account_run.
    replace (List.find _ (users s)) with (@None User.t); [split; reflexivity|].
    symmetry. apply find_none_iff. intros v Hv.
    destruct (prisma.where_id id v) eqn:E; [|reflexivity].
    apply where_id_true in E. exfalso. exact (Hnone v Hv E).
  - intros l1 u l2 Hs.
    assert (Hin : In u (users s)).
    { rewrite Hs. apply List.in_or_app. right. left. reflexivity. }
    pose proof Hpk as Hpk'. rewrite Hs in Hpk'.
    pose proof (others_have_other_ids l1 u l2 Hpk') as Hids.
    rewrite put_account_run, (find_by_id _ _ Hpk Hin). split.
    + intros (v & Hv & Hemail).
      replace (List.existsb _ (users s)) with true; [split; reflexivity|].
      symmetry. apply email_taken_iff. exists v. rewrite Hs.
      split; [|split; [exact Hemail | apply Hids; exact Hv]].
      apply List.in_app_or in Hv as [Hv|Hv]; apply List.in_or_app; simpl; auto.
    + intros Hfree.
      replace (List.existsb _ (users s)) with false.
      * unfold updated. rewrite Hs, (update_rows_unique _ _ _ _ Hpk').
        reflexivity.
      * symmetry.
        destruct (List.existsb _ (users s)) eqn:E; [|reflexivity].
        apply email_taken_iff in E as (v & Hv & Hemail & Hid). exfalso.
        rewrite Hs in Hv. apply List.in_app_or in Hv as [Hv|[<-|Hv]].
        -- apply (Hfree v); [apply List.in_or_app; auto | exact Hemail].
        -- apply Hid. reflexivity.
        -- apply (Hfree v); [apply List.in_or_app; auto | exact Hemail].
Qed.

Lemma put_account_frame_witness :
  account_status (fst (put_account 1 "Ann" "bob@x.com" two_accounts)) = 500
  /\ snd (put_account 1 "Ann" "bob@x.com" two_accounts) = two_accounts
  /\ put_account 1 "Anna" "anna@x.com" two_accounts
     = ({| account_status := 200;
           account_body :=
             account_updated "Conta atualizada com sucesso"
               (1, "Anna", "anna@x.com") |},
        {| users := [User.mk 1 "Anna" "anna@x.com" "01$pw1" true None
                       None None 10;
                     User.mk 2 "Bob" "bob@x.com" "02$pw2" true None
                       None None 20];
           User_id_seq := 3 |}).
Proof.
  assert (Hpk : NoDup (List.map User.id (users two_accounts))).
  { simpl. constructor; [simpl; intros [H|[]]; discriminate|].
    constructor; [simpl; tauto | constructor]. }
  destruct (put_account_frame two_accounts "Ann" "bob@x.com" Hpk) as [_ Htaken].
  destruct (put_account_frame two_accounts "Anna" "anna@x.com" Hpk) as [_ Hfree].
  destruct (Htaken [] (User.mk 1 "Ann" "ann@x.com" "01$pw1" true None
                         None None 10)
              [User.mk 2 "Bob" "bob@x.com" "02$pw2" true None None None 20]
              eq_refl) as [Hrefused _].
  destruct (Hfree [] (User.mk 1 "Ann" "ann@x.com" "01$pw1" true None
                        None None 10)
              [User.mk 2 "Bob" "bob@x.com" "02$pw2" true None None None 20]
              eq_refl) as [_ Hdone].
  split; [|split].
  - apply Hrefused. eexists. split; [left; reflexivity | reflexivity].
  - apply Hrefused. eexists. split; [left; reflexivity | reflexivity].
  - apply Hdone. intros v [<-|[]]. simpl. discriminate.
Defined.

(** X17: PUT /api/account keeps the constraints of the table: from
    distinct ids, distinct emails and ids below the serial it leads, on
    success or failure, to a table with the same three properties. *)
Theorem put_account_keeps_constraints (s : Store) (id : Z) (name email : string) :
  well_formed s -> well_formed (snd (put_account id name email s)).
Proof.
  intros (Hpk & Huniq & Hseq). rewrite put_account_run.
  destruct (List.find _ (users s)) as [u|] eqn:Hf;
    [|repeat split; assumption].
  destruct (List.existsb _ (users s)) eqn:Hex;
    [repeat split; assumption|].
  destruct (find_split _ _ _ Hf) as (l1 & l2 & Hs & Hu & _).
  apply where_id_true in Hu. subst id.
  pose proof Hpk as Hpk'. rewrite Hs in Hpk'.
  pose proof (others_have_other_ids l1 u l2 Hpk') as Hids.
  assert (Hupd : updated s (User.id u) (set_profile name email)
                 = {| users := (l1 ++ set_profile name email u :: l2)%list;
                      User_id_seq := User_id_seq s |}).
  { unfold updated. rewrite Hs, (update_rows_unique _ _ _ _ Hpk').
    reflexivity. }
  cbn [snd]. rewrite Hupd. unfold well_formed. cbn [users User_id_seq].
  repeat split.
  - rewrite List.map_app in *. exact Hpk'.
  - rewrite Hs in Huniq. rewrite List.map_app in *. simpl in *.
    apply (NoDup_replace_middle _ email (User.email u)); [exact Huniq|].
    rewrite <- List.map_app. intros Hin.
    apply List.in_map_iff in Hin as (v & Hemail & Hv).
    assert (Htaken : List.existsb
              (fun r => prisma.where_email email r
                        && negb (prisma.where_id (User.id u) r)) (users s)
              = true).
    { apply email_taken_iff. exists v. rewrite Hs.
      split; [|split; [exact Hemail | apply Hids; exact Hv]].
      apply List.in_app_or in Hv as [Hv|Hv]; apply List.in_or_app; simpl; auto. }
    congruence.
  - intros v Hv. apply List.in_app_or in Hv as [Hv|[<-|Hv]].
    + apply Hseq. rewrite Hs. apply List.in_or_app. auto.
    + simpl. apply Hseq. rewrite Hs. apply List.in_or_app. simpl. auto.
    + apply Hseq. rewrite Hs. apply List.in_or_app. simpl. auto.
Qed.

Lemma put_account_keeps_constraints_witness :
  well_formed (snd (put_account 1 "Anna" "anna@x.com" two_accounts)).
Proof.
  apply (put_account_keeps_constraints two_accounts 1 "Anna" "anna@x.com").
  repeat split; simpl.
  - constructor; [simpl; intros [H|[]]; discriminate|].
    constructor; [simpl; tauto | constructor].
  - constructor; [simpl; intros [H|[]]; discriminate|].
    constructor; [simpl; tauto | constructor].
  - intros u [<-|[<-|[]]]; simpl; lia.
Defined.

Section ProfileFlows.

Context {bcrypt : Bcrypt} {jws : Jws}.

Lemma others_have_other_emails (l1 : list User.t) u l2 :
  NoDup (List.map User.email (l1 ++ u :: l2)%list) ->
  forall v, In v (l1 ++ l2)%list -> User.email v <> User.email u.
Proof.
  intros Hnd v Hv Heq. rewrite List.map_app in Hnd. simpl in Hnd.
  apply List.NoDup_remove_2 in Hnd. rewrite <- List.map_app in Hnd.
  apply Hnd. rewrite <- Heq. apply List.in_map. exact Hv.
Qed.

Lemma put_account_success s name email l1 u l2 :
  NoDup (List.map User.id (users s)) ->
  users s = (l1 ++ u :: l2)%list ->
  (forall v, In v (l1 ++ l2)%list -> User.email v <> email) ->
  users (snd (put_account (User.id u) name email s))
  = (l1 ++ set_profile name email u :: l2)%list.
Proof.
  intros Hpk Hs Hfree.
  assert (Hin : In u (users s)).
  { rewrite Hs. apply List.in_or_app. right. left. reflexivity. }
  pose proof Hpk as Hpk'. rewrite Hs in Hpk'.
  rewrite put_account_run, (find_by_id _ _ Hpk Hin).
  destruct (List.existsb _ (users s)) eqn:E.
  - exfalso. apply email_taken_iff in E as (v & Hv & Hemail & Hid).
    rewrite Hs in Hv. apply List.in_app_or in Hv as [Hv|[<-|Hv]].
    + apply (Hfree v); [apply List.in_or_app; auto | exact Hemail].
    + apply Hid. reflexivity.
    + apply (Hfree v); [apply List.in_or_app; auto | exact Hemail].
  - simpl. rewrite Hs. apply update_rows_unique. exact Hpk'.
Qed.

Lemma email_absent_find email (l : list User.t) :
  (forall v, In v l -> User.email v <> email) ->
  forall v, In v l -> prisma.where_email email v = false.
Proof.
  intros Hfree v Hv. destruct (prisma.where_email email v) eqn:E; [|reflexivity].
  apply where_email_true in E. exfalso. exact (Hfree v Hv E).
Qed.

End ProfileFlows.

(** X18: after an account changed its email through PUT /api/account (the
    new email was free; ids and emails distinct), a login under the old
    email answers 400 "User not found", and a login under the new email
    with the unchanged password answers 200 at once, with a session token
    for the same id: the new email is not verified again. *)
Theorem put_account_then_login {bcrypt : Bcrypt} {jws : Jws}
    (JWT_SECRET : option string) (key : string) (s : Store)
    (name email password : string) (envL : Env)
    (l1 : list User.t) (u : User.t) (l2 : list User.t) :
  JWT_SECRET = Some key -> key <> EmptyString ->
  NoDup (List.map User.id (users s)) ->
  NoDup (List.map User.email (users s)) ->
  users s = (l1 ++ u :: l2)%list ->
  (forall v, In v (l1 ++ l2)%list -> User.email v <> email) ->
  email <> User.email u ->
  User.isVerified u = true ->
  bcrypt_compare password (User.password u) = true ->
  let s' := snd (put_account (User.id u) name email s) in
  fst (login JWT_SECRET (User.email u) password envL s')
  = {| status := 400; body := json_error "User not found" |}
  /\
  fst (login JWT_SECRET email password envL s')
  = {| status := 200;
       body := json_token
                 (jws_sign {| claim_id := User.id u;
                              iat := Date_now envL / 1000;
                              exp := Some (Date_now envL / 1000 + 3600) |}
                           key) |}.
Proof.
  intros Hkey Hk Hpk Huniq Hs Hfree Hnew Hver Hcmp s'.
  assert (Hs' : users s' = (l1 ++ set_profile name email u :: l2)%list).
  { unfold s'. apply put_account_success; assumption. }
  rewrite Hs in Huniq.
  pose proof (others_have_other_emails l1 u l2 Huniq) as Hold.
  split.
  - rewrite login_run, Hs'.
    replace (List.find _ _) with (@None User.t); [reflexivity|].
    symmetry. apply find_none_iff. intros v Hv.
    apply in_split_middle in Hv as [Hv|[->|Hv]].
    + apply (email_absent_find _ (l1 ++ l2)%list Hold).
      apply List.in_or_app. auto.
    + destruct (prisma.where_email (User.email u) (set_profile name email u))
        eqn:E; [|reflexivity].
      apply where_email_true in E. simpl in E. contradiction.
    + apply (email_absent_find _ (l1 ++ l2)%list Hold).
      apply List.in_or_app. auto.
  - apply (login_found JWT_SECRET email password envL s'
             (set_profile name email u)); try assumption.
    rewrite Hs'. apply find_first_match.
    + intros v Hv. apply (email_absent_find _ (l1 ++ l2)%list Hfree).
      apply List.in_or_app. auto.
    + apply where_email_true. reflexivity.
Qed.

Lemma put_account_then_login_witness :
  fst (login (bcrypt := Reference.bcrypt) (jws := Reference.jws)
         Reference.secret "ann@x.com" "pw1" (Reference.env_at 5000 x0a)
         (snd (put_account 1 "Anna" "anna@x.com" two_accounts)))
  = {| status := 400; body := json_error "User not found" |}
  /\
  fst (login (bcrypt := Reference.bcrypt) (jws := Reference.jws)
         Reference.secret "anna@x.com" "pw1" (Reference.env_at 5000 x0a)
         (snd (put_account 1 "Anna" "anna@x.com" two_accounts)))
  = {| status := 200; body := json_token "s3cr3t.1.5.3605" |}.
Proof.
  apply (put_account_then_login (bcrypt := Reference.bcrypt)
           (jws := Reference.jws) Reference.secret "s3cr3t" two_accounts
           "Anna" "anna@x.com" "pw1" (Reference.env_at 5000 x0a)
           [] (User.mk 1 "Ann" "ann@x.com" "01$pw1" true None None None 10)
           [User.mk 2 "Bob" "bob@x.com" "02$pw2" true None None None 20]
           eq_refl).
  - discriminate.
  - simpl. constructor; [simpl; intros [H|[]]; discriminate|].
    constructor; [simpl; tauto | constructor].
  - simpl. constructor; [simpl; intros [H|[]]; discriminate|].
    constructor; [simpl; tauto | constructor].
  - reflexivity.
  - intros v [<-|[]]. simpl. discriminate.
  - simpl. discriminate.
  - reflexivity.
  - reflexivity.
Defined.

(** X19: GET /api/account never writes, and its two versions answer alike
    exactly when an account has the authenticated id: for a missing account
    the first server file answers 404 and the second answers 200 with a
    null user. *)
Theorem get_account_versions (id : Z) (s : Store) :
  snd (get_account id s) = s /\ snd (get_account_second id s) = s
  /\
  (get_account id s = get_account_second id s <->
   exists u, In u (users s) /\ User.id u = id)
  /\
  ((forall u, In u (users s) -> User.id u <> id) ->
   account_status (fst (get_account id s)) = 404 /\
   fst (get_account_second id s)
   = {| account_status := 200; account_body := account_user None |}).
Proof.
  unfold get_account, get_account_second.
  destruct (List.find (prisma.where_id id) (users s)) as [u|] eqn:Hf; simpl.
  - apply List.find_some in Hf as [Hin Hu]. apply where_id_true in Hu.
    split; [reflexivity|]. split; [reflexivity|]. split.
    + split; [intros _; exists u; auto | reflexivity].
    + intros Hnone. exfalso. exact (Hnone u Hin Hu).
  - split; [reflexivity|]. split; [reflexivity|]. split.
    + split; [discriminate|]. intros (u & Hin & Hu). exfalso.
      rewrite find_none_iff in Hf. specialize (Hf u Hin).
      apply where_id_true in Hu. congruence.
    + intros _. split; reflexivity.
Qed.

(** ** Images *)

Section Images.

Lemma image_id_unique (l : list Image.t) a b :
  NoDup (List.map Image.id l) -> In a l -> In b l ->
  Image.id a = Image.id b -> a = b.
Proof.
  induction l as [|x l IH]; simpl; intros Hnd Ha Hb Heq; [tauto|].
  inversion Hnd as [|? ? Hnotin Hnd']; subst.
  destruct Ha as [->|Ha], Hb as [->|Hb]; auto.
  - exfalso. apply Hnotin. rewrite Heq. apply List.in_map. exact Hb.
  - exfalso. apply Hnotin. rewrite <- Heq. apply List.in_map. exact Ha.
Qed.

Lemma where_image_true id userId i :
  where_image id userId i = true <-> Image.id i = id /\ Image.userId i = userId.
Proof.
  unfold where_image. rewrite andb_true_iff, !Z.eqb_eq. tauto.
Qed.

Lemma filter_keeps_others (keep : Image.t -> bool) l :
  (forall i, In i l -> keep i = true) -> List.filter keep l = l.
Proof.
  induction l as [|x l IH]; simpl; intros H; [reflexivity|].
  rewrite (H x (or_introl eq_refl)), IH; auto.
Qed.

End Images.

(** X20: DELETE /api/images/:id deletes the caller's own image and nothing
    else, with the id taken as Prisma reads Number(req.params.id). On a
    table with distinct ids: an image of another owner is still there after
    any delete request of the caller, whatever the id; an id that Prisma
    refuses (not a number, or an integer that does not fit 32 bits) gets
    500 and nothing is removed; for an id in range, when the image is
    missing or belongs to someone else the answer is 404 and nothing is
    removed, and when it is the caller's the answer is 200 and exactly that
    row is gone. *)
Theorem delete_image_own_only (user : Claims) (id : option Z)
    (images : list Image.t) :
  NoDup (List.map Image.id images) ->
  let r := delete_image user id images in
  (forall i, In i images -> Image.userId i <> claim_id user -> In i (snd r))
  /\
  (id = None \/ (exists n, id = Some n /\ int4 n = false) ->
   status (fst r) = 500 /\ snd r = images)
  /\
  (forall n,
     id = Some n -> int4 n = true ->
     (forall i, In i images -> Image.id i = n ->
                Image.userId i <> claim_id user) ->
     status (fst r) = 404 /\ snd r = images)
  /\
  (forall n l1 i l2,
     id = Some n -> int4 n = true ->
     images = (l1 ++ i :: l2)%list ->
     Image.id i = n -> Image.userId i = claim_id user ->
     r = ({| status := 200; body := json_message "Imagem deletada com sucesso!" |},
          (l1 ++ l2)%list)).
Proof.
  intros Hpk r. unfold r, delete_image, where_image_field.
  destruct id as [n|]; [destruct (int4 n) eqn:Hrange|].
  - destruct (List.find _ images) as [img|] eqn:Hf.
    + apply List.find_some in Hf as [Himg Hmatch].
      apply where_image_true in Hmatch as [Hid Howner].
      split; [|split; [|split]].
      * intros i Hi Hother. simpl. apply List.filter_In. split; [exact Hi|].
        apply negb_true_iff, Z.eqb_neq. intros Heq.
        apply Hother. rewrite (image_id_unique images i img Hpk Hi Himg Heq).
        exact Howner.
      * intros [Hno|(m & Hm & Hout)]; [discriminate|].
        injection Hm as <-. congruence.
      * intros m [= <-] _ Hnot. exfalso. exact (Hnot img Himg Hid Howner).
      * intros m l1 i l2 [= <-] _ Hs Hi Hown. simpl.
        assert (Hsame : img = i).
        { apply (image_id_unique images); try assumption.
          - rewrite Hs. apply List.in_or_app. right. left. reflexivity.
          - congruence. }
        subst img. f_equal. rewrite Hs, List.filter_app. simpl.
        rewrite Z.eqb_refl. simpl.
        assert (Hothers : forall x, In x (l1 ++ l2)%list ->
                   negb (Z.eqb (Image.id x) (Image.id i)) = true).
        { intros x Hx. apply negb_true_iff, Z.eqb_neq. intros Heq.
          rewrite Hs in Hpk. rewrite List.map_app in Hpk. simpl in Hpk.
          apply List.NoDup_remove_2 in Hpk. rewrite <- List.map_app in Hpk.
          apply Hpk. rewrite <- Heq. apply List.in_map. exact Hx. }
        rewrite !filter_keeps_others; [reflexivity| |];
          intros x Hx; apply Hothers, List.in_or_app; auto.
    + split; [|split; [|split]].
      * intros i Hi _. exact Hi.
      * intros [Hno|(m & Hm & Hout)]; [discriminate|].
        injection Hm as <-. congruence.
      * intros m _ _ _. split; reflexivity.
      * intros m l1 i l2 [= <-] _ Hs Hi Hown. exfalso.
        assert (Hin : In i images).
        { rewrite Hs. apply List.in_or_app. right. left. reflexivity. }
        pose proof (List.find_none _ _ Hf i Hin) as Hno.
        assert (where_image n (claim_id user) i = true)
          by (apply where_image_true; auto).
        congruence.
  - split; [|split; [|split]].
    + intros i Hi _. exact Hi.
    + intros _. split; reflexivity.
    + intros m [= <-] Hin. congruence.
    + intros m l1 i l2 [= <-] Hin. congruence.
  - split; [|split; [|split]].
    + intros i Hi _. exact Hi.
    + intros _. split; reflexivity.
    + intros m Hm. discriminate.
    + intros m l1 i l2 Hm. discriminate.
Qed.

Lemma delete_image_own_only_witness :
  status (fst (delete_image {| claim_id := 1; iat := 1; exp := Some 3601 |}
                 (Some 2) two_images)) = 404
  /\ snd (delete_image {| claim_id := 1; iat := 1; exp := Some 3601 |}
            (Some 2) two_images) = two_images
  /\ snd (delete_image {| claim_id := 1; iat := 1; exp := Some 3601 |}
            (Some 1) two_images)
     = [Image.mk 2 "20-b.png"
          "https://devimagehost.netlify.app/uploads/20-b.png" None None 20 2]
  /\ status (fst (delete_image {| claim_id := 1; iat := 1; exp := Some 3601 |}
                    (Some 2147483648) two_images)) = 500.
Proof.
  assert (Hpk : NoDup (List.map Image.id two_images)).
  { simpl. constructor; [simpl; intros [H|[]]; discriminate|].
    constructor; [simpl; tauto | constructor]. }
  destruct (delete_image_own_only {| claim_id := 1; iat := 1; exp := Some 3601 |}
              (Some 2) two_images Hpk) as (_ & _ & Hforeign & _).
  destruct (delete_image_own_only {| claim_id := 1; iat := 1; exp := Some 3601 |}
              (Some 1) two_images Hpk) as (_ & _ & _ & Hown).
  destruct (delete_image_own_only {| claim_id := 1; iat := 1; exp := Some 3601 |}
              (Some 2147483648) two_images Hpk) as (_ & Hrefused & _).
  assert (H404 : status (fst (delete_image
                                {| claim_id := 1; iat := 1; exp := Some 3601 |}
                                (Some 2) two_images)) = 404
                 /\ snd (delete_image
                           {| claim_id := 1; iat := 1; exp := Some 3601 |}
                           (Some 2) two_images) = two_images).
  { apply (Hforeign 2 eq_refl eq_refl).
    intros i [<-|[<-|[]]]; simpl; intros; discriminate. }
  split; [exact (proj1 H404)|]. split; [exact (proj2 H404)|]. split.
  - rewrite (Hown 1 [] (Image.mk 1 "10-a.png"
                          "https://devimagehost.netlify.app/uploads/10-a.png"
                          None None 10 1)
               [Image.mk 2 "20-b.png"
                  "https://devimagehost.netlify.app/uploads/20-b.png"
                  None None 20 2] eq_refl eq_refl eq_refl eq_refl eq_refl).
    reflexivity.
  - apply Hrefused. right. exists 2147483648. split; reflexivity.
Defined.

(** ** Who can verify an account *)

Section OnlyTheLink.

Context {bcrypt : Bcrypt} {jws : Jws}.
Variable JWT_SECRET : option string.

Lemma nth_updated s i data n :
  List.nth_error (users (updated s i data)) n
  = option_map (fun r => if prisma.where_id i r then data r else r)
      (List.nth_error (users s) n).
Proof. simpl. unfold prisma.update_rows. apply List.nth_error_map. Qed.

(** A write that leaves [isVerified] alone cannot be what verified a row. *)
Lemma update_keeps_unverified s i data n u u' :
  (forall r, User.isVerified (data r) = User.isVerified r) ->
  List.nth_error (users s) n = Some u ->
  List.nth_error (users (updated s i data)) n = Some u' ->
  User.isVerified u' = User.isVerified u.
Proof.
  intros Hdata Hu Hu'. rewrite nth_updated, Hu in Hu'. simpl in Hu'.
  injection Hu' as <-. destruct (prisma.where_id i u); auto.
Qed.

End OnlyTheLink.

(** X21: only verify-email verifies. If one request turns the account in
    some row from unverified to verified, that request was a verify-email,
    it matched an account with the same id, and when its token was a
    string that string was, at that moment, the verifyToken of the matched
    account: neither signup, login, password change, forgot-password nor
    reset-password ever verifies an account. (A verify-email whose token is
    not a string is not bound to any account's token.) *)
Theorem only_verify_email_verifies {bcrypt : Bcrypt} {jws : Jws}
    (JWT_SECRET : option string) (c : Call) (env : Env) (s : Store)
    (n : nat) (u u' : User.t) :
  List.nth_error (users s) n = Some u ->
  List.nth_error (users (snd (serve JWT_SECRET c env s))) n = Some u' ->
  User.isVerified u = false -> User.isVerified u' = true ->
  exists token v,
    c = GET_verify_email token /\ In v (users s) /\
    User.id v = User.id u /\
    (forall t, token = Js.str t -> User.verifyToken v = Some t).
Proof.
  intros Hu Hu' Hbefore Hafter.
  assert (Hsame : users (snd (serve JWT_SECRET c env s)) = users s -> False).
  { intros E. rewrite E in Hu'. congruence. }
  assert (Hkeep : forall i data,
             (forall r, User.isVerified (data r) = User.isVerified r) ->
             snd (serve JWT_SECRET c env s) = updated s i data -> False).
  { intros i data Hdata E. rewrite E in Hu'.
    pose proof (update_keeps_unverified s i data n u u' Hdata Hu Hu').
    congruence. }
  destruct c as [name email password|token|email password
                |h current newPass|email|token newPass]; simpl in *.
  - exfalso. rewrite signup_run in Hu', Hsame.
    destruct (List.find _ (users s)); simpl in *; [apply Hsame; reflexivity|].
    assert (Hn : (n < List.length (users s))%nat)
      by (apply List.nth_error_Some; congruence).
    rewrite (List.nth_error_app1 _ _ Hn) in Hu'. congruence.
  - rewrite verify_email_field in Hu', Hsame.
    destruct (prisma.where_verifyToken_field token) as [p|] eqn:Hp;
      [|exfalso; apply Hsame; reflexivity].
    destruct (List.find p (users s)) as [v|] eqn:Hf;
      [|exfalso; apply Hsame; reflexivity].
    apply List.find_some in Hf as [Hv Hmatch].
    exists token, v. split; [reflexivity|]. split; [exact Hv|]. split.
    + cbn [snd] in Hu'. rewrite nth_updated, Hu in Hu'. simpl in Hu'.
      injection Hu' as <-.
      destruct (prisma.where_id (User.id v) u) eqn:E; [|congruence].
      apply where_id_true in E. congruence.
    + intros t ->. simpl in Hp. injection Hp as <-.
      apply where_verifyToken_true. exact Hmatch.
  - exfalso. apply Hsame. rewrite login_keeps_store. reflexivity.
  - exfalso. unfold put_account_password, authenticateToken in *.
    destruct (Js.truthy (bearer_token h)) as [tok|];
      [|apply Hsame; reflexivity].
    destruct (jwt.verify tok JWT_SECRET (Date_now env)) as [e|user];
      [apply Hsame; reflexivity|].
    rewrite account_password_run in Hu', Hsame, Hkeep.
    destruct (List.find _ (users s)) as [u0|]; [|apply Hsame; reflexivity].
    destruct (bcrypt_compare current (User.password u0));
      [|apply Hsame; reflexivity].
    eapply Hkeep; [|reflexivity]. reflexivity.
  - exfalso. rewrite forgot_password_run in Hu', Hsame, Hkeep.
    destruct (List.find _ (users s)); [|apply Hsame; reflexivity].
    eapply Hkeep; [|reflexivity]. reflexivity.
  - exfalso. rewrite reset_password_field in Hu', Hsame, Hkeep.
    destruct (prisma.where_reset_field token (Date_now env)) as [p|];
      [|apply Hsame; reflexivity].
    destruct (List.find p (users s)); [|apply Hsame; reflexivity].
    eapply Hkeep; [|reflexivity]. reflexivity.
Qed.

Lemma only_verify_email_verifies_witness :
  exists token v,
    GET_verify_email (Js.str "v1") = GET_verify_email token /\
    In v (users pending_store) /\ User.id v = 1 /\
    (forall t, token = Js.str t -> User.verifyToken v = Some t).
Proof.
  apply (only_verify_email_verifies (bcrypt := Reference.bcrypt)
           (jws := Reference.jws) Reference.secret
           (GET_verify_email (Js.str "v1"))
           (Reference.env_at 2000 x02) pending_store 0
           (User.mk 1 "Ann" "ann@x.com" "01$pw1" false (Some "v1")
              None None 1000)
           (User.mk 1 "Ann" "ann@x.com" "01$pw1" true None None None 1000));
    reflexivity.
Defined.
